(** * physfs-cpp: the buffered stream adapter [fbuf] and the stream classes

    A shallow embedding of [src/include/physfs.hpp] (the part that follows
    the header: class [fbuf], [base_fstream], [openWithMode] and the
    [ifstream]/[ofstream]/[fstream] constructors, destructors and [close]).

    - The PhysicsFS C library is external.  Its file handle is a parameter:
      the class [PhysFS] lists the calls made on a handle and the three
      open calls, and every call on a handle goes through a wrapper that
      records it in a log, so that "calls the handle", "does not call the
      handle" and "flushes before it closes" are statements about that log.
    - [std::streambuf] is external too; its pointer triples (get area and
      put area) are offsets into [buffer], and its non-virtual entry points
      ([sputc], [sbumpc], [sgetn], ...) follow the C++ standard.
    - [MemFile] is a reference handle (an in-memory file) used where a claim
      needs the handle to store bytes. *)

From Stdlib Require Import ZArith Lia Strings.Byte.
From stdpp Require Import base list strings.

Local Open Scope Z_scope.

(** ** Characters and the stream's integer type *)

(** [char] is one byte; [int_type] is [int]; [traits_type::eof()] is -1. *)
Abbreviation char := byte.
Abbreviation int_type := Z.
Definition traits_eof : int_type := -1.

(** [(unsigned char) c] promoted to [int_type]. *)
Definition to_int_type (c : char) : int_type := Z.of_N (Byte.to_N c).

(** [(char) c] for an [int_type] [c]: the low eight bits. *)
Definition to_char_type (c : int_type) : char :=
  default "000"%byte (Byte.of_N (Z.to_N (c mod 256))).

(** Conversion to [PHYSFS_uint64] at a call of the library. *)
Definition to_uint64 (z : Z) : Z := z mod 2 ^ 64.

(** ** The PhysicsFS file handle *)

(** One entry per call of the library on the handle. *)
Inductive call :=
| c_eof
| c_readBytes (len : Z)
| c_writeBytes (data : list char) (len : Z)
| c_seek (pos : Z)
| c_tell
| c_fileLength
| c_close
| c_close_null.

(** The calls of [physfs.h] the adapter uses, on the state [File] of one
    open handle.  [lib_readBytes f len] gives the new state, the bytes
    stored at the destination and the returned count; [lib_writeBytes f
    data len] gets the [len] bytes at the source pointer.  [PHYSFS_eof],
    [PHYSFS_tell] and [PHYSFS_fileLength] are queries: they leave the
    handle as it is.  An open call gives the state of the new handle, or
    nothing for a null pointer. *)
Class PhysFS (File : Type) := {
  lib_eof : File -> bool;
  lib_readBytes : File -> Z -> File * list char * Z;
  lib_writeBytes : File -> list char -> Z -> File * Z;
  lib_seek : File -> Z -> File * Z;
  lib_tell : File -> Z;
  lib_fileLength : File -> Z;
  lib_close : File -> File * Z;
  lib_openRead : string -> option File;
  lib_openWrite : string -> option File;
  lib_openAppend : string -> option File
}.

(** The handle together with the log of the calls made on it. *)
Record world (File : Type) := World { hfile : File; hlog : list call }.
Arguments World {File} _ _.
Arguments hfile {File} _.
Arguments hlog {File} _.

(** State passing over the world. *)
Definition IO (File A : Type) : Type := world File -> A * world File.

Definition ret {File A} (a : A) : IO File A := fun w => (a, w).
Definition bind {File A B} (m : IO File A) (k : A -> IO File B) : IO File B :=
  fun w => let (a, w') := m w in k a w'.

Notation "x <- m ;; k" := (bind m (fun x => k))
  (at level 100, m at next level, right associativity).
Notation "m ;;; k" := (bind m (fun _ => k))
  (at level 100, right associativity).

(** ** [std::streambuf] state and the members of [fbuf] *)

(** The six [streambuf] pointers are offsets from [buffer]. *)
Record fbuf := Fbuf {
  buffer : list char;
  bufferSize : Z;
  eback : Z; gptr : Z; egptr : Z;
  pbase : Z; pptr : Z; epptr : Z
}.

Definition setg (this : fbuf) (gbeg gnext gend : Z) : fbuf :=
  Fbuf (buffer this) (bufferSize this) gbeg gnext gend
       (pbase this) (pptr this) (epptr this).

Definition setp (this : fbuf) (pbeg pend : Z) : fbuf :=
  Fbuf (buffer this) (bufferSize this) (eback this) (gptr this) (egptr this)
       pbeg pbeg pend.

Definition pbump (this : fbuf) (n : Z) : fbuf :=
  Fbuf (buffer this) (bufferSize this) (eback this) (gptr this) (egptr this)
       (pbase this) (pptr this + n) (epptr this).

Definition gbump (this : fbuf) (n : Z) : fbuf :=
  Fbuf (buffer this) (bufferSize this) (eback this) (gptr this + n)
       (egptr this) (pbase this) (pptr this) (epptr this).

Definition set_buffer (this : fbuf) (b : list char) : fbuf :=
  Fbuf b (bufferSize this) (eback this) (gptr this) (egptr this)
       (pbase this) (pptr this) (epptr this).

(** [*p] for a pointer [p = buffer + off]; outside the array the read is
    undefined in C++, the model gives the zero byte. *)
Definition peek (this : fbuf) (off : Z) : char :=
  if off <? 0 then "000"%byte
  else default "000"%byte (buffer this !! Z.to_nat off).

(** [*p = c]; outside the array the store is undefined in C++, the model
    leaves the buffer as it is. *)
Definition poke (this : fbuf) (off : Z) (c : char) : fbuf :=
  if off <? 0 then this
  else set_buffer this (<[Z.to_nat off := c]> (buffer this)).

(** The bytes [buffer + off, buffer + off + len). *)
Definition slice (this : fbuf) (off len : Z) : list char :=
  take (Z.to_nat len) (drop (Z.to_nat off) (buffer this)).

(** The library stores at most [len] bytes of [data] at [buffer]. *)
Definition blit (this : fbuf) (data : list char) (len : Z) : fbuf :=
  let d := take (Z.to_nat len) data in
  set_buffer this (d ++ drop (length d) (buffer this)).

(** [ios_base::openmode] bits and [ios_base::seekdir] (libstdc++ values). *)
Definition ios_in : Z := 8.
Definition ios_out : Z := 16.
Definition has_bit (mode bit : Z) : bool := negb (Z.land mode bit =? 0).

Inductive seekdir := ios_beg | ios_cur | ios_end | ios_dir_other.

Section Adapter.
Context {File : Type} `{PhysFS File}.

Definition log (c : call) (w : world File) : world File :=
  World (hfile w) (hlog w ++ [c]).

(** *** The logged library calls *)

Definition PHYSFS_eof : IO File bool :=
  fun w => (lib_eof (hfile w), log c_eof w).

Definition PHYSFS_readBytes (len : Z) : IO File (list char * Z) :=
  fun w => let '(f, data, n) := lib_readBytes (hfile w) len in
           ((data, n), World f (hlog w ++ [c_readBytes len])).

Definition PHYSFS_writeBytes (data : list char) (len : Z) : IO File Z :=
  fun w => let '(f, n) := lib_writeBytes (hfile w) data len in
           (n, World f (hlog w ++ [c_writeBytes data len])).

Definition PHYSFS_seek (pos : Z) : IO File Z :=
  fun w => let '(f, r) := lib_seek (hfile w) pos in
           (r, World f (hlog w ++ [c_seek pos])).

Definition PHYSFS_tell : IO File Z :=
  fun w => (lib_tell (hfile w), log c_tell w).

Definition PHYSFS_fileLength : IO File Z :=
  fun w => (lib_fileLength (hfile w), log c_fileLength w).

Definition PHYSFS_close : IO File Z :=
  fun w => let '(f, r) := lib_close (hfile w) in
           (r, World f (hlog w ++ [c_close])).

(** [PHYSFS_close(nullptr)]: the library finds no such handle. *)
Definition PHYSFS_close_nullptr : IO File Z :=
  fun w => (0, log c_close_null w).

(** *** [fbuf] *)

(** [explicit fbuf(PHYSFS_File* file, std::size_t bufferSize = 2048)].
    [new char[bufferSize]] is uninitialised; the model fills it with
    [init] cut or padded to the size. *)
Definition fbuf_ctor_with (init : list char) (bufferSize : Z) : fbuf :=
  let n := Z.to_nat bufferSize in
  let mem := take n init ++ replicate (n - length init)%nat "000"%byte in
  let end_ := 0 + bufferSize in
  setp (setg (Fbuf mem bufferSize 0 0 0 0 0 0) end_ end_ end_) 0 end_.

Definition fbuf_ctor (bufferSize : Z) : fbuf := fbuf_ctor_with [] bufferSize.

Definition default_bufferSize : Z := 2048.

(** [int flush() const] *)
Definition flush (this : fbuf) : IO File Z :=
  let len := pptr this - pbase this in
  if len =? 0 then ret 0
  else
    n <- PHYSFS_writeBytes (slice this (pbase this) len) (to_uint64 len) ;;
    if n <? len then ret (-1) else ret 0.

(** [int_type underflow() override] *)
Definition underflow (this : fbuf) : IO File (int_type * fbuf) :=
  e <- PHYSFS_eof ;;
  if (e : bool) then ret (traits_eof, this)
  else
    r <- PHYSFS_readBytes (bufferSize this) ;;
    let '(data, bytesRead) := r in
    let this := blit this data (bufferSize this) in
    if bytesRead <? 1 then ret (traits_eof, this)
    else
      let this := setg this 0 0 (0 + bytesRead) in
      ret (to_int_type (peek this (gptr this)), this).

(** The two [if (mode & ...)] blocks shared by [seekoff] and [seekpos]. *)
Definition reset_areas (this : fbuf) (mode : Z) : fbuf :=
  let this :=
    if has_bit mode ios_in
    then setg this (egptr this) (egptr this) (egptr this) else this in
  if has_bit mode ios_out then setp this 0 0 else this.

(** [pos_type seekoff(off_type pos, seekdir dir, openmode mode) override] *)
Definition seekoff (this : fbuf) (pos : Z) (dir : seekdir) (mode : Z)
  : IO File (Z * fbuf) :=
  match dir with
  | ios_beg => PHYSFS_seek (to_uint64 pos) ;;; ret tt
  | ios_cur =>
      t <- PHYSFS_tell ;;
      PHYSFS_seek (to_uint64 ((t + pos) - (egptr this - gptr this))) ;;;
      ret tt
  | ios_end =>
      l <- PHYSFS_fileLength ;;
      PHYSFS_seek (to_uint64 (l + pos)) ;;; ret tt
  | ios_dir_other => ret tt
  end ;;;
  let this := reset_areas this mode in
  t <- PHYSFS_tell ;;
  ret (t, this).

(** [pos_type seekpos(pos_type pos, openmode mode) override] *)
Definition seekpos (this : fbuf) (pos : Z) (mode : Z) : IO File (Z * fbuf) :=
  PHYSFS_seek (to_uint64 pos) ;;;
  let this := reset_areas this mode in
  t <- PHYSFS_tell ;;
  ret (t, this).

(** [int_type overflow(int_type c = traits_type::eof()) override] *)
Definition overflow (this : fbuf) (c : int_type) : IO File (int_type * fbuf) :=
  r <- flush this ;;
  if r <? 0 then ret (traits_eof, this)
  else
    let this := setp this 0 (0 + bufferSize this) in
    let this :=
      if c =? traits_eof then this
      else pbump (poke this (pptr this) (to_char_type c)) 1 in
    ret (c, this).

(** [int sync() override] *)
Definition sync (this : fbuf) : IO File (Z * fbuf) :=
  result <- flush this ;;
  let this := setp this 0 (0 + bufferSize this) in
  ret (result, this).

(** [~fbuf() override]: [flush(); delete[] buffer;] *)
Definition fbuf_dtor (this : fbuf) : IO File unit :=
  flush this ;;; ret tt.

(** *** The non-virtual [std::streambuf] entry points (C++ standard) *)

Definition sputc (this : fbuf) (c : char) : IO File (int_type * fbuf) :=
  if pptr this <? epptr this
  then ret (to_int_type c, pbump (poke this (pptr this) c) 1)
  else overflow this (to_int_type c).

Definition sgetc (this : fbuf) : IO File (int_type * fbuf) :=
  if gptr this <? egptr this
  then ret (to_int_type (peek this (gptr this)), this)
  else underflow this.

(** The default [uflow]: [underflow], then step over the byte. *)
Definition uflow (this : fbuf) : IO File (int_type * fbuf) :=
  r <- underflow this ;;
  let '(c, this) := r in
  if c =? traits_eof then ret (traits_eof, this)
  else ret (to_int_type (peek this (gptr this)), gbump this 1).

Definition sbumpc (this : fbuf) : IO File (int_type * fbuf) :=
  if gptr this <? egptr this
  then ret (to_int_type (peek this (gptr this)), gbump this 1)
  else uflow this.

(** The default [xsputn]: as if by repeated [sputc], until one fails;
    the result is the number of characters written. *)
Fixpoint sputn (this : fbuf) (s : list char) : IO File (Z * fbuf) :=
  match s with
  | [] => ret (0, this)
  | c :: s' =>
      r <- sputc this c ;;
      let '(i, this) := r in
      if i =? traits_eof then ret (0, this)
      else
        r' <- sputn this s' ;;
        let '(n, this) := r' in ret (1 + n, this)
  end.

(** The default [xsgetn]: as if by repeated [sbumpc], until end of
    stream; the result is the characters stored at the destination. *)
Fixpoint sgetn (this : fbuf) (n : nat) : IO File (list char * fbuf) :=
  match n with
  | O => ret ([], this)
  | S n' =>
      r <- sbumpc this ;;
      let '(i, this) := r in
      if i =? traits_eof then ret ([], this)
      else
        r' <- sgetn this n' ;;
        let '(cs, this) := r' in ret (to_char_type i :: cs, this)
  end.

Definition pubsync := sync.
Definition pubseekoff := seekoff.
Definition pubseekpos := seekpos.

End Adapter.

(** ** [base_fstream], [openWithMode] and the stream classes *)

Inductive mode := READ | WRITE | APPEND.

(** [std::invalid_argument(what)]. *)
Inductive exn := invalid_argument (what : string).

(** A [PHYSFS_File*] held by a stream: null, or the address of the handle
    of the world (a stream owns one handle). *)
Inductive PHYSFS_File_ptr := nullptr | handle_ptr.

(** A stream object: the [file] member of [base_fstream] and the
    [rdbuf()] of the [std::istream]/[std::ostream]/[std::iostream] base. *)
Record stream := Stream { file : PHYSFS_File_ptr; rdbuf : option fbuf }.

(** [std::string::c_str()] read back as a C string: up to the first NUL. *)
Fixpoint c_str (s : string) : string :=
  match s with
  | EmptyString => EmptyString
  | String a r => if Ascii.eqb a Ascii.zero then EmptyString
                  else String a (c_str r)
  end.

Section Streams.
Context {File : Type} `{PhysFS File}.

(** [PHYSFS_File* openWithMode(char const* filename, mode openMode)] *)
Definition openWithMode (filename : string) (openMode : mode) : exn + File :=
  let file :=
    match openMode with
    | WRITE => lib_openWrite filename
    | APPEND => lib_openAppend filename
    | READ => lib_openRead filename
    end in
  match file with
  | None => inl (invalid_argument ("file not found: " +:+ filename))
  | Some f => inr f
  end.

(** [base_fstream::base_fstream(PHYSFS_File* file)] *)
Definition base_fstream_ctor (file : option File) : exn + File :=
  match file with
  | None =>
      inl (invalid_argument "attempted to construct fstream with NULL ptr")
  | Some f => inr f
  end.

(** The three constructors share one shape:
    [base_fstream(openWithMode(filename.c_str(), m)), std::...(new fbuf(file))]. *)
Definition stream_ctor (filename : string) (openMode : mode)
  : exn + (stream * world File) :=
  match openWithMode (c_str filename) openMode with
  | inl e => inl e
  | inr f =>
      match base_fstream_ctor (Some f) with
      | inl e => inl e
      | inr f =>
          inr (Stream handle_ptr (Some (fbuf_ctor default_bufferSize)),
               World f [])
      end
  end.

Definition ifstream_ctor (filename : string) := stream_ctor filename READ.
Definition ofstream_ctor (filename : string) (writeMode : mode) :=
  stream_ctor filename writeMode.
Definition fstream_ctor (filename : string) (openMode : mode) :=
  stream_ctor filename openMode.

(** [delete rdbuf()]: runs [~fbuf] when the pointer is not null. *)
Definition delete_rdbuf (s : stream) : IO File unit :=
  match rdbuf s with
  | Some b => fbuf_dtor b
  | None => ret tt
  end.

(** [base_fstream::~base_fstream()]: [PHYSFS_close(file); file = nullptr;] *)
Definition base_fstream_dtor (s : stream) : IO File stream :=
  match file s with
  | handle_ptr => PHYSFS_close
  | nullptr => PHYSFS_close_nullptr
  end ;;;
  ret (Stream nullptr (rdbuf s)).

(** [ofstream::~ofstream()] ([delete rdbuf();]) followed by the
    destructors of its bases, [std::ostream] and then [base_fstream]. *)
Definition ofstream_dtor (s : stream) : IO File stream :=
  delete_rdbuf s ;;;
  base_fstream_dtor s.

Definition ifstream_dtor := ofstream_dtor.
Definition fstream_dtor := ofstream_dtor.

(** [PhysFS::size_t base_fstream::length()] *)
Definition base_fstream_length (s : stream) : IO File Z := PHYSFS_fileLength.

(** [void base_fstream::close()] *)
Definition base_fstream_close (s : stream) : IO File stream :=
  match file s with
  | handle_ptr => PHYSFS_close ;;; ret (Stream nullptr (rdbuf s))
  | nullptr => ret s
  end.

(** [void ofstream::close()]:
    [base_fstream::close(); delete rdbuf(); set_rdbuf(nullptr);] *)
Definition ofstream_close (s : stream) : IO File stream :=
  s <- base_fstream_close s ;;
  delete_rdbuf s ;;;
  ret (Stream (file s) None).

Definition ifstream_close := ofstream_close.
Definition fstream_close := ofstream_close.

End Streams.

(** ** A reference handle: the in-memory file *)

(** Modelled from the spec: the PhysicsFS library ([physfs.h]) is not part
    of this repository.  [MemFile] is the "handle-based,
    explicitly-positioned file abstraction (open/read-n-bytes/
    write-n-bytes/seek/tell/length/close)" of the spec's system overview:
    the bytes of one file and the handle's absolute position. *)
Record MemFile := Mem { content : list char; position : nat }.

Definition mem_eof (f : MemFile) : bool :=
  bool_decide (length (content f) ≤ position f)%nat.

Definition mem_readBytes (f : MemFile) (len : Z) : MemFile * list char * Z :=
  let data := take (Z.to_nat len) (drop (position f) (content f)) in
  (Mem (content f) (position f + length data), data, Z.of_nat (length data)).

(** Bytes [d] stored at [pos]: over what is there, extending the file at
    its end. *)
Definition overwrite (l : list char) (pos : nat) (d : list char) : list char :=
  take pos l ++ replicate (pos - length l)%nat "000"%byte ++ d
    ++ drop (pos + length d)%nat l.

Definition mem_writeBytes (f : MemFile) (data : list char) (len : Z)
  : MemFile * Z :=
  let d := take (Z.to_nat len) data in
  (Mem (overwrite (content f) (position f) d) (position f + length d),
   Z.of_nat (length d)).

Definition mem_seek (f : MemFile) (pos : Z) : MemFile * Z :=
  if bool_decide (0 ≤ pos ≤ Z.of_nat (length (content f)))
  then (Mem (content f) (Z.to_nat pos), 1)
  else (f, 0).

Definition mem_tell (f : MemFile) : Z := Z.of_nat (position f).
Definition mem_fileLength (f : MemFile) : Z := Z.of_nat (length (content f)).
Definition mem_close (f : MemFile) : MemFile * Z := (f, 1).

(** A directory of named files for the three open calls. *)
Definition directory := list (string * list char).

Fixpoint dir_lookup (dir : directory) (name : string) : option (list char) :=
  match dir with
  | [] => None
  | (n, c) :: rest => if String.eqb n name then Some c else dir_lookup rest name
  end.

Definition mem_openRead (dir : directory) (name : string) : option MemFile :=
  c ← dir_lookup dir name; Some (Mem c 0).

Definition mem_openWrite (dir : directory) (name : string) : option MemFile :=
  if String.eqb name "" then None else Some (Mem [] 0).

Definition mem_openAppend (dir : directory) (name : string) : option MemFile :=
  if String.eqb name "" then None
  else let c := default [] (dir_lookup dir name) in Some (Mem c (length c)).

Definition MemFS (dir : directory) : PhysFS MemFile := {|
  lib_eof := mem_eof;
  lib_readBytes := mem_readBytes;
  lib_writeBytes := mem_writeBytes;
  lib_seek := mem_seek;
  lib_tell := mem_tell;
  lib_fileLength := mem_fileLength;
  lib_close := mem_close;
  lib_openRead := mem_openRead dir;
  lib_openWrite := mem_openWrite dir;
  lib_openAppend := mem_openAppend dir
|}.

(** Byte lists from string literals, for the examples. *)
Definition bytes_of (s : string) : list char :=
  String.list_byte_of_string s.

(** ** Reopening a stream, and the list functions *)

Section Reopen.
Context {File : Type} `{PhysFS File}.

(** [void ofstream::open(std::string const& filename, mode openMode)]:
    [close(); file = openWithMode(filename.c_str(), openMode);
     if (file) set_rdbuf(new fbuf(file));]
    The result is the world of the handle the stream had (as [close]
    left it), and either the exception with the stream as it stands, or
    the stream with the world of its new handle.  [openWithMode] returns
    no null pointer, so the [if] always takes its branch. *)
Definition ofstream_open (s : stream) (filename : string) (openMode : mode)
    (w : world File)
  : world File * (exn * stream + stream * world File) :=
  let '(s1, w1) := ofstream_close s w in
  match openWithMode (c_str filename) openMode with
  | inl e => (w1, inl (e, s1))
  | inr f =>
      (w1, inr (Stream handle_ptr (Some (fbuf_ctor default_bufferSize)),
                World f []))
  end.

Definition fstream_open := ofstream_open.

End Reopen.

(** A NULL-terminated C array of pointers, as the library returns it:
    the cells from the start of the array on, [None] for a null pointer. *)
Definition c_array (A : Type) : Type := list (option A).

(** The loop [for (p = begin; *p != NULL; p++)] that pushes each [*p] on
    the result vector.  ([PHYSFS_freeList], called after the loop by the
    three string functions, returns nothing and frees the array.)
    Running off the cells is undefined in C++; the model stops there. *)
Fixpoint push_back_until_null {A : Type} (arr : c_array A) : list A :=
  match arr with
  | Some x :: rest => x :: push_back_until_null rest
  | None :: _ => []
  | [] => []
  end.

Section ListFunctions.
(** The library calls, as the arrays they return. *)
Variable A_ArchiveInfo : Type.
Variable PHYSFS_supportedArchiveTypes : c_array A_ArchiveInfo.
Variable PHYSFS_getCdRomDirs : c_array string.
Variable PHYSFS_getSearchPath : c_array string.
Variable PHYSFS_enumerateFiles : string -> c_array string.

(** [ArchiveInfoList supportedArchiveTypes()] *)
Definition supportedArchiveTypes : list A_ArchiveInfo :=
  push_back_until_null PHYSFS_supportedArchiveTypes.

(** [StringList getCdRomDirs()] *)
Definition getCdRomDirs : list string :=
  push_back_until_null PHYSFS_getCdRomDirs.

(** [StringList getSearchPath()] *)
Definition getSearchPath : list string :=
  push_back_until_null PHYSFS_getSearchPath.

(** [StringList enumerateFiles(const string& directory)] *)
Definition enumerateFiles (directory : string) : list string :=
  push_back_until_null (PHYSFS_enumerateFiles (c_str directory)).

End ListFunctions.

(** A NULL-terminated array holding [xs], with whatever follows the
    terminator in memory. *)
Definition null_terminated {A : Type} (xs : list A) (after : c_array A)
  : c_array A :=
  (Some <$> xs) ++ None :: after.

(** ** Definitions used to state the properties *)

(** Is this call a write on the handle? *)
Definition is_write (c : call) : bool :=
  match c with
  | c_writeBytes _ _ => true
  | _ => false
  end.

(** The number of bytes of the get area not yet consumed. *)
Definition unconsumed (this : fbuf) : Z := egptr this - gptr this.

(** The number of bytes of the put area not yet flushed. *)
Definition pending (this : fbuf) : Z := pptr this - pbase this.

Section Repeated.
Context {File : Type} `{PhysFS File}.

(** [n] consecutive [sbumpc] calls, with every result kept. *)
Fixpoint sbumpc_times (n : nat) (this : fbuf) : IO File (list int_type * fbuf) :=
  match n with
  | O => ret ([], this)
  | S n' =>
      r <- sbumpc this ;;
      let '(i, this) := r in
      r' <- sbumpc_times n' this ;;
      let '(rs, this) := r' in ret (i :: rs, this)
  end.
End Repeated.

(** Does the string hold a NUL character? *)
Fixpoint has_nul (s : string) : bool :=
  match s with
  | EmptyString => false
  | String a r => Ascii.eqb a Ascii.zero || has_nul r
  end.

(** The number of [PHYSFS_close] calls on the handle in a log. *)
Fixpoint count_close (l : list call) : nat :=
  match l with
  | [] => 0
  | c_close :: r => S (count_close r)
  | _ :: r => count_close r
  end.

(** The library's open call that [openWithMode] picks for a mode. *)
Definition lib_open {File : Type} `{PhysFS File} (m : mode)
  : string -> option File :=
  match m with
  | WRITE => lib_openWrite
  | APPEND => lib_openAppend
  | READ => lib_openRead
  end.

(** *** Invariants of the adapter over the in-memory file *)

(** The handle never stands beyond the end of its file. *)
Definition mem_ok (f : MemFile) : Prop :=
  (position f <= length (content f))%nat.

(** The put area is [0, pptr) of a buffer of [bufferSize] bytes. *)
Record put_ok (this : fbuf) : Prop := PutOk {
  put_base : pbase this = 0;
  put_ptr : 0 <= pptr this <= epptr this;
  put_end : epptr this <= bufferSize this;
  put_len : Z.of_nat (length (buffer this)) = bufferSize this;
  put_size : 0 < bufferSize this < 2 ^ 64
}.

(** The get area lies inside a buffer of [bufferSize] bytes. *)
Record get_ok (this : fbuf) : Prop := GetOk {
  get_ptr : 0 <= gptr this <= egptr this;
  get_end : egptr this <= bufferSize this;
  get_len : Z.of_nat (length (buffer this)) = bufferSize this;
  get_size : 0 < bufferSize this
}.

(** The file as it will be once the pending bytes are flushed, and the
    position the next written byte will get. *)
Definition committed (this : fbuf) (f : MemFile) : list char :=
  overwrite (content f) (position f) (slice this 0 (pptr this)).

Definition put_position (this : fbuf) (f : MemFile) : nat :=
  (position f + Z.to_nat (pptr this))%nat.

(** The bytes a reader has still to see: the unconsumed part of the get
    area, then the file from the handle's position on. *)
Definition upcoming (this : fbuf) (f : MemFile) : list char :=
  slice this (gptr this) (unconsumed this) ++ drop (position f) (content f).

(** *** Concrete states for the worked instances *)

(** A directory with one file, and a handle on an eleven-byte file. *)
Definition ex_fs : PhysFS MemFile :=
  MemFS [("a.txt"%string, bytes_of "hello world")].

Definition ex_world : world MemFile :=
  World (Mem (bytes_of "hello world") 0) [].

(** The same handle at the end of its file. *)
Definition ex_world_eof : world MemFile :=
  World (Mem (bytes_of "hello world") 11) [].

(** A fresh adapter with a four-byte buffer. *)
Definition ex_fbuf : fbuf := fbuf_ctor 4.

(** The adapter after three bytes were written and none flushed. *)
Definition ex_fbuf_written : fbuf :=
  Eval vm_compute in
    snd (fst (sputn (H := ex_fs) ex_fbuf (bytes_of "abc") ex_world)).

(** The adapter and the world after three bytes were read: the buffer
    was filled with four. *)
Definition ex_fbuf_read : fbuf :=
  Eval vm_compute in snd (fst (sgetn (H := ex_fs) ex_fbuf 3 ex_world)).

Definition ex_world_read : world MemFile :=
  Eval vm_compute in snd (sgetn (H := ex_fs) ex_fbuf 3 ex_world).

(** * Properties *)

(** ** Characters *)

Lemma to_int_type_range (c : char) : 0 <= to_int_type c <= 255.
Proof.
  unfold to_int_type. pose proof (Byte.to_N_bounded c). lia.
Qed.

Lemma to_int_type_not_eof (c : char) : (to_int_type c =? traits_eof) = false.
Proof.
  pose proof (to_int_type_range c). unfold traits_eof. lia.
Qed.

Lemma to_char_type_to_int_type (c : char) : to_char_type (to_int_type c) = c.
Proof.
  pose proof (to_int_type_range c) as Hr. unfold to_char_type.
  rewrite Z.mod_small by lia. unfold to_int_type.
  rewrite N2Z.id, Byte.of_to_N. reflexivity.
Qed.

Lemma to_uint64_small (z : Z) : 0 <= z < 2 ^ 64 -> to_uint64 z = z.
Proof. intros Hz. unfold to_uint64. apply Z.mod_small. exact Hz. Qed.

(** ** Buffer arithmetic *)

Lemma length_slice (this : fbuf) (off len : Z) :
  0 <= off -> 0 <= len -> off + len <= Z.of_nat (length (buffer this)) ->
  Z.of_nat (length (slice this off len)) = len.
Proof.
  intros Ho Hl Hb. unfold slice. rewrite length_take, length_drop. lia.
Qed.

Lemma slice_zero (this : fbuf) (off : Z) : slice this off 0 = [].
Proof. unfold slice. cbn [Z.to_nat]. apply take_0. Qed.

Section AdapterFacts.
Context {File : Type} `{PhysFS File}.

Lemma hfile_log (c : call) (w : world File) : hfile (log c w) = hfile w.
Proof. reflexivity. Qed.

Lemma hlog_log (c : call) (w : world File) : hlog (log c w) = hlog w ++ [c].
Proof. reflexivity. Qed.

(** [flush] on an empty put area does not reach the library. *)
Lemma flush_nothing (this : fbuf) (w : world File) :
  pptr this = pbase this -> flush this w = (0, w).
Proof.
  intros Hp. unfold flush. rewrite Hp, Z.sub_diag. reflexivity.
Qed.

(** [flush] with pending bytes is one [PHYSFS_writeBytes]. *)
Lemma flush_pending (this : fbuf) (w : world File) f n :
  let len := pptr this - pbase this in
  let data := slice this (pbase this) len in
  len <> 0 ->
  lib_writeBytes (hfile w) data (to_uint64 len) = (f, n) ->
  flush this w =
    ((if n <? len then -1 else 0),
     World f (hlog w ++ [c_writeBytes data (to_uint64 len)])).
Proof.
  intros len data Hlen Hw. unfold flush. fold len. fold data.
  destruct (len =? 0) eqn:E; [lia|].
  unfold bind, PHYSFS_writeBytes. rewrite Hw.
  destruct (n <? len); reflexivity.
Qed.

End AdapterFacts.

Section Claims.
Context {File : Type} `{PhysFS File}.

(** C3. [flush] takes the pending count to be [pptr - pbase].  With a
    count of zero it returns 0 and the world (handle and call log) is
    the one it started from.  With a positive count it makes exactly
    one library call, a write of the [count] bytes that start at
    [pbase], on the handle as it stands; it returns -1 exactly when the
    library reports fewer bytes than the count, and 0 otherwise. *)
Theorem flush_spec (this : fbuf) (w : world File) :
  let len := pptr this - pbase this in
  let data := slice this (pbase this) len in
  (len = 0 -> flush this w = (0, w)) /\
  (0 < len < 2 ^ 64 ->
   forall f n, lib_writeBytes (hfile w) data len = (f, n) ->
     exists r,
       flush this w = (r, World f (hlog w ++ [c_writeBytes data len])) /\
       (r = -1 <-> n < len) /\
       (r = 0 <-> len <= n) /\
       (0 <= pbase this ->
        pptr this <= Z.of_nat (length (buffer this)) ->
        Z.of_nat (length data) = len)).
Proof.
  intros len data. split.
  - intros Hz. apply flush_nothing. lia.
  - intros Hlen f n Hw.
    exists (if n <? len then -1 else 0). split.
    + pose proof (flush_pending this w f n) as Hf. cbv zeta in Hf.
      fold len data in Hf. rewrite to_uint64_small in Hf by lia.
      apply Hf; [lia | exact Hw].
    + destruct (n <? len) eqn:E.
      * repeat split; try lia. intros. apply length_slice; lia.
      * repeat split; try lia. intros. apply length_slice; lia.
Qed.

(** C2. [underflow]: when the handle reports end of file the result is
    the end-of-stream marker, the adapter (buffer and pointers) is as
    before and the handle was only asked [PHYSFS_eof].  Otherwise one
    read of [bufferSize] bytes is issued on the handle as it stands;
    a count below one gives the end-of-stream marker; a count [n >= 1]
    (short or not) makes [0, n) the get area with the get pointer at
    its start, returns the byte there as a value in [0, 255] (so never
    the marker), leaves the put area alone, and, when the library
    stored the [n] bytes it announced, the get area holds those bytes. *)
Theorem underflow_spec (this : fbuf) (w : world File) :
  (lib_eof (hfile w) = true ->
     underflow this w = (traits_eof, this, log c_eof w)) /\
  (lib_eof (hfile w) = false ->
   forall f data n,
     lib_readBytes (hfile w) (bufferSize this) = (f, data, n) ->
     let w' := World f (hlog w ++ [c_eof; c_readBytes (bufferSize this)]) in
     exists r this',
       underflow this w = (r, this', w') /\
       (n < 1 -> r = traits_eof) /\
       (1 <= n ->
          eback this' = 0 /\ gptr this' = 0 /\ egptr this' = n /\
          r = to_int_type (peek this' (gptr this')) /\
          0 <= r <= 255 /\ r <> traits_eof /\
          pbase this' = pbase this /\ pptr this' = pptr this /\
          epptr this' = epptr this /\
          (Z.of_nat (length data) = n -> n <= bufferSize this ->
           slice this' (gptr this') (egptr this' - gptr this') = data))).
Proof.
  split.
  - intros He. unfold underflow, bind, PHYSFS_eof. rewrite He. reflexivity.
  - intros He f data n Hr w'.
    unfold underflow, bind, PHYSFS_eof, PHYSFS_readBytes. rewrite He.
    cbn [hfile hlog log]. rewrite Hr. rewrite <- app_assoc. cbn [app].
    destruct (n <? 1) eqn:E.
    + eexists _, _. split; [reflexivity|]. split; [reflexivity|]. lia.
    + eexists _, _. split; [reflexivity|]. split; [lia|]. intros Hn.
      cbn [eback gptr egptr pbase pptr epptr setg blit set_buffer].
      pose proof (to_int_type_range
        (peek (setg (blit this data (bufferSize this)) 0 0 (0 + n)) 0)) as Hb.
      repeat split; try reflexivity; try lia.
      * unfold traits_eof. lia.
      * intros Hlen Hle. unfold slice.
        cbn [buffer setg blit set_buffer].
        rewrite Z.add_0_l, Z.sub_0_r.
        rewrite (take_ge data) by lia.
        change (Z.to_nat 0) with 0%nat. rewrite drop_0.
        rewrite take_app_length' by lia. reflexivity.
Qed.

(** *** Seeking *)

Lemma seekpos_eq (this : fbuf) (pos mode : Z) (w : world File) f r :
  lib_seek (hfile w) (to_uint64 pos) = (f, r) ->
  seekpos this pos mode w =
    (lib_tell f, reset_areas this mode,
     World f (hlog w ++ [c_seek (to_uint64 pos); c_tell])).
Proof.
  intros Hs. unfold seekpos, bind, PHYSFS_seek, PHYSFS_tell, ret, log.
  rewrite Hs. cbn [hfile hlog]. rewrite <- app_assoc. reflexivity.
Qed.

Lemma seekoff_beg_eq (this : fbuf) (pos mode : Z) (w : world File) f r :
  lib_seek (hfile w) (to_uint64 pos) = (f, r) ->
  seekoff this pos ios_beg mode w =
    (lib_tell f, reset_areas this mode,
     World f (hlog w ++ [c_seek (to_uint64 pos); c_tell])).
Proof.
  intros Hs. unfold seekoff, bind, PHYSFS_seek, PHYSFS_tell, ret, log.
  rewrite Hs. cbn [hfile hlog]. rewrite <- app_assoc. reflexivity.
Qed.

Lemma seekoff_cur_eq (this : fbuf) (pos mode : Z) (w : world File) f r :
  let target := to_uint64 ((lib_tell (hfile w) + pos) - (egptr this - gptr this)) in
  lib_seek (hfile w) target = (f, r) ->
  seekoff this pos ios_cur mode w =
    (lib_tell f, reset_areas this mode,
     World f (hlog w ++ [c_tell; c_seek target; c_tell])).
Proof.
  intros target Hs.
  unfold seekoff, bind, PHYSFS_seek, PHYSFS_tell, ret, log.
  cbn [hfile hlog]. fold target. rewrite Hs. cbn [hfile hlog].
  rewrite <- !app_assoc. reflexivity.
Qed.

Lemma seekoff_end_eq (this : fbuf) (pos mode : Z) (w : world File) f r :
  let target := to_uint64 (lib_fileLength (hfile w) + pos) in
  lib_seek (hfile w) target = (f, r) ->
  seekoff this pos ios_end mode w =
    (lib_tell f, reset_areas this mode,
     World f (hlog w ++ [c_fileLength; c_seek target; c_tell])).
Proof.
  intros target Hs.
  unfold seekoff, bind, PHYSFS_seek, PHYSFS_tell, PHYSFS_fileLength, ret, log.
  cbn [hfile hlog]. fold target. rewrite Hs. cbn [hfile hlog].
  rewrite <- !app_assoc. reflexivity.
Qed.

Lemma seekoff_other_eq (this : fbuf) (pos mode : Z) (w : world File) :
  seekoff this pos ios_dir_other mode w =
    (lib_tell (hfile w), reset_areas this mode,
     World (hfile w) (hlog w ++ [c_tell])).
Proof. reflexivity. Qed.

(** What every seek has in common: the adapter's areas are reset by
    [reset_areas], the handle saw at most one seek and no write. *)
Lemma seek_shape (this : fbuf) (mode : Z) (w : world File) :
  forall res : Z * fbuf * world File,
    (exists pos dir, res = seekoff this pos dir mode w) \/
    (exists pos, res = seekpos this pos mode w) ->
    snd (fst res) = reset_areas this mode /\
    fst (fst res) = lib_tell (hfile (snd res)) /\
    (exists calls, hlog (snd res) = hlog w ++ calls /\
                   forallb (fun c => negb (is_write c)) calls = true) /\
    (hfile (snd res) = hfile w \/
     exists p, hfile (snd res) = fst (lib_seek (hfile w) p)).
Proof.
  intros res [(pos & dir & ->) | (pos & ->)].
  - destruct dir.
    + destruct (lib_seek (hfile w) (to_uint64 pos)) as [f r] eqn:Hs.
      rewrite (seekoff_beg_eq _ _ _ _ _ _ Hs). cbn [fst snd hfile hlog].
      repeat split; [eexists; split; [reflexivity | reflexivity] |].
      right. exists (to_uint64 pos). rewrite Hs. reflexivity.
    + destruct (lib_seek (hfile w)
                  (to_uint64 ((lib_tell (hfile w) + pos) - (egptr this - gptr this))))
        as [f r] eqn:Hs.
      rewrite (seekoff_cur_eq _ _ _ _ _ _ Hs). cbn [fst snd hfile hlog].
      repeat split; [eexists; split; [reflexivity | reflexivity] |].
      right. eexists. rewrite Hs. reflexivity.
    + destruct (lib_seek (hfile w) (to_uint64 (lib_fileLength (hfile w) + pos)))
        as [f r] eqn:Hs.
      rewrite (seekoff_end_eq _ _ _ _ _ _ Hs). cbn [fst snd hfile hlog].
      repeat split; [eexists; split; [reflexivity | reflexivity] |].
      right. eexists. rewrite Hs. reflexivity.
    + rewrite seekoff_other_eq. cbn [fst snd hfile hlog].
      repeat split; [eexists; split; [reflexivity | reflexivity] |].
      left. reflexivity.
  - destruct (lib_seek (hfile w) (to_uint64 pos)) as [f r] eqn:Hs.
    rewrite (seekpos_eq _ _ _ _ _ _ Hs). cbn [fst snd hfile hlog].
    repeat split; [eexists; split; [reflexivity | reflexivity] |].
    right. exists (to_uint64 pos). rewrite Hs. reflexivity.
Qed.

Lemma reset_areas_in (this : fbuf) (mode : Z) :
  has_bit mode ios_in = true ->
  let this' := reset_areas this mode in
  eback this' = egptr this /\ gptr this' = egptr this /\
  egptr this' = egptr this.
Proof.
  intros Hb. unfold reset_areas. rewrite Hb.
  destruct (has_bit mode ios_out); repeat split.
Qed.

Lemma reset_areas_out (this : fbuf) (mode : Z) :
  has_bit mode ios_out = true ->
  let this' := reset_areas this mode in
  pbase this' = 0 /\ pptr this' = 0 /\ epptr this' = 0.
Proof.
  intros Hb. unfold reset_areas. rewrite Hb. repeat split.
Qed.

(** C4. A seek from the current position with offset [k], on an adapter
    holding [n] unconsumed bytes in its get area, asks the handle for
    its position [raw] and then seeks it to [(raw + k) - n] (for a
    target that is a position, 0 up to 2^64); nothing else reaches the
    handle but the final [PHYSFS_tell], whose answer is returned.  When
    the handle moves where it was told, the result is [(raw + k) - n],
    and for [k = 0] it is [raw - n], the logical position. *)
Theorem seekoff_cur_spec (this : fbuf) (k mode : Z) (w : world File) :
  let n := unconsumed this in
  let raw := lib_tell (hfile w) in
  let target := (raw + k) - n in
  0 <= target < 2 ^ 64 ->
  forall f r, lib_seek (hfile w) target = (f, r) ->
    seekoff this k ios_cur mode w =
      (lib_tell f, reset_areas this mode,
       World f (hlog w ++ [c_tell; c_seek target; c_tell])) /\
    (lib_tell f = target ->
       fst (fst (seekoff this k ios_cur mode w)) = (raw + k) - n /\
       (k = 0 -> fst (fst (seekoff this k ios_cur mode w)) = raw - n)).
Proof.
  intros n raw target Ht f r Hs.
  assert (Heq : to_uint64 ((lib_tell (hfile w) + k) - (egptr this - gptr this))
                = target).
  { apply to_uint64_small. exact Ht. }
  pose proof (seekoff_cur_eq this k mode w f r) as Hc. cbv zeta in Hc.
  rewrite Heq in Hc. specialize (Hc Hs). split; [exact Hc|].
  intros Hh. rewrite Hc. cbn [fst]. split; [exact Hh|].
  intros ->. rewrite Hh. unfold target. lia.
Qed.

(** C7. A seek (by offset or absolute) whose mode has the output bit
    empties the put area ([pbase = pptr = epptr]) whatever was pending:
    among the calls it makes on the handle there is no write, the handle
    is at most moved by one [PHYSFS_seek], and afterwards [flush] and
    the destructor of the adapter find nothing to write. *)
Theorem seek_out_discards (this : fbuf) (mode : Z) (w : world File) :
  has_bit mode ios_out = true ->
  forall res : Z * fbuf * world File,
    (exists pos dir, res = seekoff this pos dir mode w) \/
    (exists pos, res = seekpos this pos mode w) ->
    let this' := snd (fst res) in
    let w' := snd res in
    pending this' = 0 /\ epptr this' = pbase this' /\
    (exists calls, hlog w' = hlog w ++ calls /\
                   forallb (fun c => negb (is_write c)) calls = true) /\
    (hfile w' = hfile w \/ exists p, hfile w' = fst (lib_seek (hfile w) p)) /\
    flush this' w' = (0, w') /\
    fbuf_dtor this' w' = (tt, w').
Proof.
  intros Hb res Hres this' w'.
  destruct (seek_shape this mode w res Hres) as (Hthis & _ & Hcalls & Hfile).
  destruct (reset_areas_out this mode Hb) as (Hpb & Hpp & Hep).
  fold this' in Hthis. rewrite <- Hthis in Hpb, Hpp, Hep.
  assert (Hfl : flush this' w' = (0, w')).
  { apply flush_nothing. lia. }
  unfold pending. repeat split; try lia; try assumption.
  unfold fbuf_dtor, bind. rewrite Hfl. reflexivity.
Qed.

Lemma underflow_asks_handle (this : fbuf) (w : world File) :
  exists rest, hlog (snd (underflow this w)) = hlog w ++ c_eof :: rest.
Proof.
  unfold underflow, bind, PHYSFS_eof, PHYSFS_readBytes.
  destruct (lib_eof (hfile w)).
  - exists []. reflexivity.
  - cbn [hfile hlog log].
    destruct (lib_readBytes (hfile w) (bufferSize this)) as [[f data] n].
    exists [c_readBytes (bufferSize this)].
    destruct (n <? 1); cbn [snd hlog ret]; rewrite <- app_assoc; reflexivity.
Qed.

(** C8. A seek (by offset or absolute) whose mode has the input bit
    leaves the get area empty: no unconsumed byte, all three pointers
    equal.  The next read ([sgetc] or [sbumpc]) therefore is
    [underflow] (resp. [uflow]) on the handle as the seek left it, and
    the first thing it does is to call the handle. *)
Theorem seek_in_invalidates (this : fbuf) (mode : Z) (w : world File) :
  has_bit mode ios_in = true ->
  forall res : Z * fbuf * world File,
    (exists pos dir, res = seekoff this pos dir mode w) \/
    (exists pos, res = seekpos this pos mode w) ->
    let this' := snd (fst res) in
    let w' := snd res in
    unconsumed this' = 0 /\
    eback this' = gptr this' /\ gptr this' = egptr this' /\
    sgetc this' w' = underflow this' w' /\
    sbumpc this' w' = uflow this' w' /\
    (exists rest, hlog (snd (sgetc this' w')) = hlog w' ++ c_eof :: rest).
Proof.
  intros Hb res Hres this' w'.
  destruct (seek_shape this mode w res Hres) as (Hthis & _).
  destruct (reset_areas_in this mode Hb) as (Hgb & Hgp & Hge).
  fold this' in Hthis. rewrite <- Hthis in Hgb, Hgp, Hge.
  assert (Hlt : (gptr this' <? egptr this') = false) by lia.
  assert (Hsg : sgetc this' w' = underflow this' w').
  { unfold sgetc. rewrite Hlt. reflexivity. }
  unfold unconsumed. repeat split; try lia.
  - exact Hsg.
  - unfold sbumpc. rewrite Hlt. reflexivity.
  - rewrite Hsg. apply underflow_asks_handle.
Qed.

(** *** Reading at end of file *)

Lemma sbumpc_at_eof (this : fbuf) (w : world File) :
  unconsumed this <= 0 -> lib_eof (hfile w) = true ->
  sbumpc this w = (traits_eof, this, log c_eof w).
Proof.
  intros Hu He. unfold unconsumed in Hu. unfold sbumpc.
  destruct (gptr this <? egptr this) eqn:E; [lia|].
  unfold uflow, bind, underflow, bind, PHYSFS_eof. rewrite He. reflexivity.
Qed.

Lemma sgetc_at_eof (this : fbuf) (w : world File) :
  unconsumed this <= 0 -> lib_eof (hfile w) = true ->
  sgetc this w = (traits_eof, this, log c_eof w).
Proof.
  intros Hu He. unfold unconsumed in Hu. unfold sgetc.
  destruct (gptr this <? egptr this) eqn:E; [lia|].
  unfold underflow, bind, PHYSFS_eof. rewrite He. reflexivity.
Qed.

Lemma sbumpc_times_at_eof (n : nat) (this : fbuf) (w : world File) :
  unconsumed this <= 0 -> lib_eof (hfile w) = true ->
  sbumpc_times n this w =
    (replicate n traits_eof, this,
     World (hfile w) (hlog w ++ replicate n c_eof)).
Proof.
  intros Hu. revert w. induction n as [|n IH]; intros w He.
  - cbn. rewrite app_nil_r. destruct w; reflexivity.
  - cbn [sbumpc_times]. unfold bind at 1.
    rewrite (sbumpc_at_eof this w Hu He).
    unfold bind. rewrite IH by exact He. unfold ret.
    cbn [hfile hlog log replicate]. rewrite <- app_assoc. reflexivity.
Qed.

(** C9. With the get area exhausted and the handle at end of file, a
    read ([underflow], [sgetc], [sbumpc], [sgetn]) gives the
    end-of-stream marker (no byte), the adapter and the handle stay as
    they were (the handle was only asked [PHYSFS_eof]), and so any
    number of further reads give the marker again. *)
Theorem eof_read_idempotent (this : fbuf) (w : world File) :
  unconsumed this <= 0 -> lib_eof (hfile w) = true ->
  underflow this w = (traits_eof, this, log c_eof w) /\
  sgetc this w = (traits_eof, this, log c_eof w) /\
  sbumpc this w = (traits_eof, this, log c_eof w) /\
  hfile (log c_eof w) = hfile w /\
  (forall n, sgetn this (S n) w = ([], this, log c_eof w)) /\
  (forall n, sbumpc_times n this w =
     (replicate n traits_eof, this,
      World (hfile w) (hlog w ++ replicate n c_eof))).
Proof.
  intros Hu He. repeat split.
  - unfold underflow, bind, PHYSFS_eof. rewrite He. reflexivity.
  - apply sgetc_at_eof; assumption.
  - apply sbumpc_at_eof; assumption.
  - intros n. cbn [sgetn]. unfold bind.
    rewrite (sbumpc_at_eof this w Hu He). reflexivity.
  - intros n. apply sbumpc_times_at_eof; assumption.
Qed.

End Claims.

(** ** Writing into the put area *)

Section PutArea.
Context {File : Type} `{PhysFS File}.

Lemma sputc_room (this : fbuf) (c : char) (w : world File) :
  pptr this < epptr this ->
  sputc this c w = (to_int_type c, pbump (poke this (pptr this) c) 1, w).
Proof.
  intros Hr. unfold sputc. destruct (pptr this <? epptr this) eqn:E; [|lia].
  reflexivity.
Qed.

Lemma take_poke (this : fbuf) (c : char) :
  0 <= pptr this < Z.of_nat (length (buffer this)) ->
  take (Z.to_nat (pptr this + 1)) (buffer (poke this (pptr this) c)) =
  take (Z.to_nat (pptr this)) (buffer this) ++ [c].
Proof.
  intros Hp. unfold poke. destruct (pptr this <? 0) eqn:E; [lia|].
  cbn [buffer set_buffer].
  replace (Z.to_nat (pptr this + 1)) with (S (Z.to_nat (pptr this))) by lia.
  rewrite (take_S_r _ _ c).
  - rewrite take_insert_ge by lia. reflexivity.
  - apply list_lookup_insert_eq. lia.
Qed.

Lemma length_poke (this : fbuf) (off : Z) (c : char) :
  length (buffer (poke this off c)) = length (buffer this).
Proof.
  unfold poke. destruct (off <? 0); [reflexivity|].
  cbn [buffer set_buffer]. apply length_insert.
Qed.

(** The adapter after [*pptr() = c; pbump(1);]. *)
Lemma put_char_facts (this : fbuf) (c : char) :
  0 <= pptr this < Z.of_nat (length (buffer this)) ->
  let this' := pbump (poke this (pptr this) c) 1 in
  slice this' 0 (pptr this') = slice this 0 (pptr this) ++ [c] /\
  pptr this' = pptr this + 1 /\ pbase this' = pbase this /\
  epptr this' = epptr this /\ bufferSize this' = bufferSize this /\
  length (buffer this') = length (buffer this) /\
  eback this' = eback this /\ gptr this' = gptr this /\
  egptr this' = egptr this.
Proof.
  intros Hp this'.
  assert (Hpp : pptr this' = pptr this + 1).
  { unfold this', poke. destruct (pptr this <? 0); reflexivity. }
  split.
  - unfold slice. change (Z.to_nat 0) with 0%nat. rewrite !drop_0, Hpp.
    change (buffer this') with (buffer (poke this (pptr this) c)).
    apply take_poke. exact Hp.
  - split; [exact Hpp|].
    unfold this', poke. destruct (pptr this <? 0) eqn:E; [lia|].
    cbn [pbase epptr bufferSize buffer eback gptr egptr pbump set_buffer].
    rewrite length_insert. repeat split.
Qed.

(** Characters that fit in the put area stay there: [sputn] stores them
    after the pending ones and makes no call on the handle. *)
Lemma sputn_fits (s : list char) :
  forall (this : fbuf) (w : world File),
    pbase this = 0 -> 0 <= pptr this ->
    epptr this <= Z.of_nat (length (buffer this)) ->
    pptr this + Z.of_nat (length s) <= epptr this ->
    exists this',
      sputn this s w = (Z.of_nat (length s), this', w) /\
      pbase this' = 0 /\
      pptr this' = pptr this + Z.of_nat (length s) /\
      epptr this' = epptr this /\
      length (buffer this') = length (buffer this) /\
      slice this' 0 (pptr this') = slice this 0 (pptr this) ++ s.
Proof.
  induction s as [|c s IH]; intros this w Hb Hp He Hfit.
  - exists this. cbn [sputn length]. unfold ret.
    rewrite Z.add_0_r, app_nil_r. repeat split; assumption.
  - cbn [length] in Hfit. cbn [sputn]. unfold bind at 1.
    rewrite sputc_room by lia. rewrite to_int_type_not_eof.
    set (this1 := pbump (poke this (pptr this) c) 1).
    assert (Hlen1 : length (buffer this1) = length (buffer this)).
    { unfold this1. cbn [buffer pbump]. apply length_poke. }
    assert (Hpp1 : pptr this1 = pptr this + 1).
    { unfold this1, poke. destruct (pptr this <? 0); reflexivity. }
    assert (Hpb1 : pbase this1 = 0).
    { unfold this1, poke. destruct (pptr this <? 0); exact Hb. }
    assert (Hep1 : epptr this1 = epptr this).
    { unfold this1, poke. destruct (pptr this <? 0); reflexivity. }
    destruct (IH this1 w) as (this' & Hrun & Hb' & Hp' & He' & Hl' & Hs');
      try lia.
    exists this'. unfold bind. rewrite Hrun. unfold ret.
    repeat split; try lia.
    + f_equal. f_equal. cbn [length]. lia.
    + cbn [length]. lia.
    + rewrite Hs'. unfold slice. change (Z.to_nat 0) with 0%nat.
      rewrite !drop_0, Hpp1.
      change (buffer this1) with (buffer (poke this (pptr this) c)).
      rewrite take_poke by lia. rewrite <- app_assoc. reflexivity.
Qed.

(** X19. After a seek that emptied the put area, the characters given to
    [sputn] (as many as the buffer holds) are the pending bytes, from the
    start of the buffer, and the handle is not called: what a later flush
    writes is these characters and nothing of what was pending before. *)
Lemma sputn_after_reset (s : list char) (this : fbuf) (w : world File) :
  pbase this = 0 -> pptr this = 0 -> epptr this = 0 ->
  Z.of_nat (length (buffer this)) = bufferSize this ->
  Z.of_nat (length s) <= bufferSize this ->
  exists this',
    sputn this s w = (Z.of_nat (length s), this', w) /\
    pbase this' = 0 /\ pptr this' = Z.of_nat (length s) /\
    slice this' (pbase this') (pptr this' - pbase this') = s.
Proof.
  intros Hb Hp He Hl Hfit. destruct s as [|c s].
  - exists this. cbn [sputn length]. unfold ret. rewrite Hb, Hp.
    repeat split.
  - cbn [length] in Hfit. cbn [sputn]. unfold bind at 1.
    assert (Hov : sputc this c w =
                  (to_int_type c,
                   pbump (poke (setp this 0 (0 + bufferSize this)) 0 c) 1, w)).
    { unfold sputc. rewrite Hp, He. change (0 <? 0) with false. cbv iota.
      unfold overflow, bind. rewrite flush_nothing by lia.
      change (0 <? 0) with false. cbv iota.
      rewrite to_int_type_not_eof, to_char_type_to_int_type. reflexivity. }
    rewrite Hov, to_int_type_not_eof.
    set (this0 := setp this 0 (0 + bufferSize this)).
    assert (H0 : pptr this0 = 0 /\ pbase this0 = 0 /\
                 epptr this0 = bufferSize this /\
                 buffer this0 = buffer this) by (repeat split).
    destruct H0 as (Hp0 & Hb0 & He0 & Hbuf0).
    change (pbump (poke this0 0 c) 1)
      with (pbump (poke this0 (pptr this0) c) 1).
    destruct (put_char_facts this0 c)
      as (Hsl & Hpp & Hpb & Hep & Hbs & Hlen & _).
    { rewrite Hp0, Hbuf0. lia. }
    set (this1 := pbump (poke this0 (pptr this0) c) 1) in *.
    rewrite Hp0, slice_zero in Hsl. rewrite Hp0 in Hpp.
    rewrite Hb0 in Hpb. rewrite He0 in Hep. rewrite Hbuf0 in Hlen.
    destruct (sputn_fits s this1 w)
      as (this' & Hrun & Hb' & Hp' & He' & Hl' & Hs'); try lia.
    exists this'. unfold bind. rewrite Hrun. unfold ret.
    split; [f_equal; f_equal; cbn [length]; lia|].
    split; [exact Hb'|]. split; [cbn [length]; lia|].
    rewrite Hb', Z.sub_0_r, Hs', Hsl. reflexivity.
Qed.

End PutArea.

(** ** Streams: opening, closing, destruction *)

Lemma c_str_no_nul (s : string) : has_nul s = false -> c_str s = s.
Proof.
  induction s as [|a r IH]; [reflexivity|].
  cbn [has_nul c_str]. destruct (Ascii.eqb a Ascii.zero); [discriminate|].
  cbn [orb]. intros Hr. rewrite IH by exact Hr. reflexivity.
Qed.

Section StreamClaims.
Context {File : Type} `{PhysFS File}.

(** C6. When the library's open call for the requested mode returns no
    handle (a missing file opened for reading, a file that cannot be
    created, truncated or appended to), [openWithMode] throws
    [std::invalid_argument] with the message "file not found: "
    followed by the file name it was given, and so does the
    construction of an [ifstream], [ofstream] or [fstream]: the result
    is the exception, never a stream object or an adapter.  The name in
    the message is the C string of the argument, which is the argument
    itself when it holds no NUL. *)
Theorem open_failure (filename : string) (m : mode) :
  lib_open m (c_str filename) = None ->
  let msg := "file not found: " +:+ c_str filename in
  openWithMode (c_str filename) m = inl (invalid_argument msg) /\
  ofstream_ctor filename m = inl (invalid_argument msg) /\
  fstream_ctor filename m = inl (invalid_argument msg) /\
  (m = READ -> ifstream_ctor filename = inl (invalid_argument msg)) /\
  (forall s w, stream_ctor filename m <> inr (s, w)) /\
  (has_nul filename = false -> msg = "file not found: " +:+ filename).
Proof.
  intros Hopen msg.
  assert (Ho : openWithMode (c_str filename) m = inl (invalid_argument msg)).
  { unfold openWithMode. destruct m; cbn [lib_open] in Hopen;
      rewrite Hopen; reflexivity. }
  assert (Hc : stream_ctor filename m = inl (invalid_argument msg)).
  { unfold stream_ctor. rewrite Ho. reflexivity. }
  repeat split; try assumption.
  - intros ->. exact Hc.
  - intros s w. rewrite Hc. discriminate.
  - intros Hn. unfold msg. rewrite c_str_no_nul by exact Hn. reflexivity.
Qed.

Lemma count_close_app (l1 l2 : list call) :
  count_close (l1 ++ l2) = (count_close l1 + count_close l2)%nat.
Proof.
  induction l1 as [|c l1 IH]; [reflexivity|].
  destruct c; cbn [app count_close]; rewrite IH; reflexivity.
Qed.

Lemma flush_no_close (this : fbuf) (w : world File) :
  count_close (hlog (snd (flush this w))) = count_close (hlog w).
Proof.
  unfold flush. destruct (pptr this - pbase this =? 0); [reflexivity|].
  unfold bind, PHYSFS_writeBytes.
  destruct (lib_writeBytes _ _ _) as [f n].
  destruct (n <? pptr this - pbase this); cbn [snd hlog ret];
    rewrite count_close_app; cbn; lia.
Qed.

(** C10. [base_fstream::close] closes the handle only when the stored
    pointer is not null and then stores null; so after one close the
    pointer is null, a second close changes neither the stream nor the
    world (no call reaches the library), close followed by close is
    close, and the log gains at most one [PHYSFS_close].  The same
    holds for the [close] of the stream classes, which also deletes the
    adapter and stores a null [rdbuf]. *)
Theorem close_idempotent (s : stream) (w : world File) :
  let s1 := fst (base_fstream_close s w) in
  let w1 := snd (base_fstream_close s w) in
  let s2 := fst (ofstream_close s w) in
  let w2 := snd (ofstream_close s w) in
  file s1 = nullptr /\
  base_fstream_close s1 w1 = (s1, w1) /\
  (x <- base_fstream_close s ;; base_fstream_close x) w =
    base_fstream_close s w /\
  hlog w1 = hlog w ++ match file s with nullptr => [] | handle_ptr => [c_close] end /\
  file s2 = nullptr /\ rdbuf s2 = None /\
  ofstream_close s2 w2 = (s2, w2) /\
  (x <- ofstream_close s ;; ofstream_close x) w = ofstream_close s w /\
  (count_close (hlog w2) <= S (count_close (hlog w)))%nat.
Proof.
  intros s1 w1 s2 w2.
  assert (Hb : file s1 = nullptr /\ base_fstream_close s1 w1 = (s1, w1) /\
               hlog w1 = hlog w ++ match file s with nullptr => [] | handle_ptr => [c_close] end).
  { unfold s1, w1, base_fstream_close.
    destruct s as [[|] rb]; cbn [file rdbuf].
    - unfold ret. cbn [fst snd file]. rewrite app_nil_r. repeat split.
    - unfold bind, PHYSFS_close, ret. destruct (lib_close (hfile w)) as [f r].
      cbn [fst snd file hlog]. repeat split. }
  destruct Hb as (Hf1 & Hc1 & Hl1).
  assert (Ho : file s2 = nullptr /\ rdbuf s2 = None /\
               ofstream_close s2 w2 = (s2, w2) /\
               (count_close (hlog w2) <= S (count_close (hlog w)))%nat).
  { unfold s2, w2, ofstream_close, bind.
    fold s1 w1. rewrite (surjective_pairing (base_fstream_close s w)).
    fold s1 w1. unfold delete_rdbuf.
    destruct (rdbuf s1) as [b|] eqn:Hrb.
    - unfold fbuf_dtor, bind, ret.
      pose proof (flush_no_close b w1) as Hfc.
      destruct (flush b w1) as [r w3]. cbn [fst snd file rdbuf] in *.
      rewrite Hf1. cbn. repeat split.
      rewrite Hfc, Hl1, count_close_app.
      destruct (file s); cbn; lia.
    - unfold ret. cbn [fst snd file rdbuf]. rewrite Hf1. cbn.
      repeat split. rewrite Hl1, count_close_app.
      destruct (file s); cbn; lia. }
  destruct Ho as (Hf2 & Hr2 & Hc2 & Hn2).
  repeat split; try assumption.
  - unfold bind. rewrite (surjective_pairing (base_fstream_close s w)).
    fold s1 w1. exact Hc1.
  - unfold bind at 1. rewrite (surjective_pairing (ofstream_close s w)).
    fold s2 w2. exact Hc2.
Qed.

Lemma fbuf_ctor_with_facts (init : list char) (bs : Z) :
  let b := fbuf_ctor_with init bs in
  length (buffer b) = Z.to_nat bs /\ bufferSize b = bs /\
  eback b = bs /\ gptr b = bs /\ egptr b = bs /\
  pbase b = 0 /\ pptr b = 0 /\ epptr b = bs.
Proof.
  cbn. repeat split.
  rewrite length_app, length_take, length_replicate. lia.
Qed.

(** With a live adapter, the destructor of a stream is [flush] and then
    the destructor of [base_fstream]. *)
Lemma ofstream_dtor_live (x : fbuf) (v : world File) :
  ofstream_dtor (Stream handle_ptr (Some x)) v =
  base_fstream_dtor (Stream handle_ptr (Some x)) (snd (flush x v)).
Proof.
  unfold ofstream_dtor, delete_rdbuf, fbuf_dtor, bind.
  cbn [rdbuf]. destruct (flush x v) as [r0 v0]. reflexivity.
Qed.

(** C5. Destroying a stream whose adapter is alive runs [~fbuf] first
    and [~base_fstream] after it: destruction is [flush] followed by
    [PHYSFS_close], whatever is pending.  With pending bytes the
    handle sees exactly one write, of all the pending bytes, and then
    the close (with none, the close alone).  In particular, characters
    written through [sputn] that do not fill the buffer reach the
    handle for the first time at destruction, as one write of all of
    them, before the close. *)
Theorem dtor_flush_then_close (b : fbuf) (w : world File) :
  let s := Stream handle_ptr (Some b) in
  let data := slice b (pbase b) (pending b) in
  ofstream_dtor s w = base_fstream_dtor s (snd (flush b w)) /\
  (0 < pending b < 2 ^ 64 ->
   forall f1 n f2 r,
     lib_writeBytes (hfile w) data (pending b) = (f1, n) ->
     lib_close f1 = (f2, r) ->
     ofstream_dtor s w =
       (Stream nullptr (Some b),
        World f2 (hlog w ++ [c_writeBytes data (pending b); c_close]))) /\
  (pending b = 0 ->
   forall f2 r, lib_close (hfile w) = (f2, r) ->
     ofstream_dtor s w =
       (Stream nullptr (Some b), World f2 (hlog w ++ [c_close]))) /\
  (forall (init bytes : list char) (bs : Z),
     let len := Z.of_nat (length bytes) in
     0 < len < bs -> bs < 2 ^ 64 ->
     exists b',
       sputn (fbuf_ctor_with init bs) bytes w = (len, b', w) /\
       pending b' = len /\
       forall f1 n f2 r,
         lib_writeBytes (hfile w) bytes len = (f1, n) ->
         lib_close f1 = (f2, r) ->
         ofstream_dtor (Stream handle_ptr (Some b')) w =
           (Stream nullptr (Some b'),
            World f2 (hlog w ++ [c_writeBytes bytes len; c_close]))).
Proof.
  intros s data. subst s data.
  pose proof ofstream_dtor_live as Hseq.
  assert (Hpend : forall (x : fbuf) (v : world File) f1 n f2 r,
    0 < pending x < 2 ^ 64 ->
    lib_writeBytes (hfile v) (slice x (pbase x) (pending x)) (pending x)
      = (f1, n) ->
    lib_close f1 = (f2, r) ->
    ofstream_dtor (Stream handle_ptr (Some x)) v =
      (Stream nullptr (Some x),
       World f2 (hlog v ++ [c_writeBytes (slice x (pbase x) (pending x))
                              (pending x); c_close]))).
  { intros x v f1 n f2 r Hp Hw Hc. rewrite Hseq.
    pose proof (flush_pending x v f1 n) as Hf. cbv zeta in Hf.
    fold (pending x) in Hf. rewrite to_uint64_small in Hf by lia.
    rewrite Hf by (lia || exact Hw).
    unfold base_fstream_dtor, bind, PHYSFS_close, ret.
    cbn [file rdbuf snd hfile hlog]. rewrite Hc.
    rewrite <- app_assoc. reflexivity. }
  split; [apply Hseq|]. split; [|split].
  - intros Hp f1 n f2 r Hw Hc. apply (Hpend b w f1 n f2 r Hp Hw Hc).
  - intros Hz f2 r Hc. rewrite Hseq. rewrite flush_nothing.
    + unfold base_fstream_dtor, bind, PHYSFS_close, ret.
      cbn [file rdbuf snd hfile hlog]. rewrite Hc. reflexivity.
    + unfold pending in Hz. lia.
  - intros init bytes bs len Hlen Hbs.
    destruct (fbuf_ctor_with_facts init bs)
      as (Hl & _ & _ & _ & _ & Hpb & Hpp & Hep).
    destruct (sputn_fits bytes (fbuf_ctor_with init bs) w)
      as (b' & Hrun & Hpb' & Hpp' & Hep' & Hl' & Hs'); try lia.
    exists b'. fold len in Hrun. split; [exact Hrun|].
    assert (Hpe : pending b' = len).
    { unfold pending. rewrite Hpp', Hpb', Hpp. fold len. lia. }
    split; [exact Hpe|].
    intros f1 n f2 r Hw Hc.
    assert (Hsl : slice b' (pbase b') (pending b') = bytes).
    { rewrite Hpb', Hpe. replace len with (pptr b') by (rewrite Hpp', Hpp; fold len; lia).
      rewrite Hs'. rewrite Hpp. unfold slice. cbn [Z.to_nat]. rewrite take_0.
      reflexivity. }
    pose proof (Hpend b' w f1 n f2 r) as Hd.
    rewrite Hsl, Hpe in Hd. apply Hd; [lia | exact Hw | exact Hc].
Qed.

(** X20. The [close] of the stream classes closes the handle before it
    deletes the adapter: pending bytes are handed to [PHYSFS_writeBytes]
    after [PHYSFS_close]. *)
Lemma ofstream_close_flushes_after_close (b : fbuf) (w : world File) :
  0 < pending b < 2 ^ 64 ->
  hlog (snd (ofstream_close (Stream handle_ptr (Some b)) w)) =
    hlog w ++ [c_close; c_writeBytes (slice b (pbase b) (pending b)) (pending b)].
Proof.
  intros Hp. unfold ofstream_close, base_fstream_close, bind, PHYSFS_close,
    delete_rdbuf, fbuf_dtor, bind, ret. cbn [file rdbuf].
  destruct (lib_close (hfile w)) as [f1 r1]. cbn [rdbuf].
  destruct (lib_writeBytes f1 (slice b (pbase b) (pending b))
              (to_uint64 (pending b))) as [f2 n] eqn:Hw.
  pose proof (flush_pending b (World f1 (hlog w ++ [c_close])) f2 n) as Hf.
  cbv zeta in Hf. fold (pending b) in Hf. cbn [hfile hlog] in Hf.
  rewrite Hf by (lia || exact Hw). cbn [snd hlog].
  rewrite to_uint64_small by lia. rewrite <- app_assoc. reflexivity.
Qed.

End StreamClaims.

(** ** More on the streams *)

Section StreamsMore.
Context {File : Type} `{PhysFS File}.


(** X12. When the library's open call gives a handle, the constructors
    give a stream on it with an adapter of 2048 bytes: nothing pending,
    nothing to consume, no call made on the handle yet.  And whatever
    the library answers, construction never ends in the exception of
    [base_fstream] for a null pointer: [openWithMode] has thrown
    before. *)
Theorem ctor_success (filename : string) (m : mode) :
  (forall f, lib_open m (c_str filename) = Some f ->
     exists b,
       ofstream_ctor filename m = inr (Stream handle_ptr (Some b), World f []) /\
       fstream_ctor filename m = inr (Stream handle_ptr (Some b), World f []) /\
       (m = READ ->
        ifstream_ctor filename = inr (Stream handle_ptr (Some b), World f [])) /\
       bufferSize b = 2048 /\ length (buffer b) = 2048%nat /\
       pending b = 0 /\ epptr b - pptr b = 2048 /\ unconsumed b = 0) /\
  stream_ctor filename m <>
    inl (invalid_argument "attempted to construct fstream with NULL ptr").
Proof.
  split.
  - intros f Hopen. exists (fbuf_ctor default_bufferSize).
    assert (Ho : openWithMode (c_str filename) m = inr f).
    { unfold openWithMode. destruct m; cbn [lib_open] in Hopen;
        rewrite Hopen; reflexivity. }
    assert (Hc : stream_ctor filename m =
                 inr (Stream handle_ptr (Some (fbuf_ctor default_bufferSize)),
                      World f [])).
    { unfold stream_ctor. rewrite Ho. reflexivity. }
    split; [exact Hc|]. split; [exact Hc|].
    split; [intros ->; exact Hc|]. repeat split.
  - unfold stream_ctor, openWithMode.
    destruct m; cbn;
      match goal with
      | |- context [match ?o with Some _ => _ | None => _ end] => destruct o
      end; cbn; discriminate.
Qed.


(** X14. A stream that was closed and is then destroyed closes its
    handle once: the destructor finds no adapter to delete and passes a
    null pointer to [PHYSFS_close]. *)
Theorem close_then_destroy (s : stream) (w : world File) :
  file s = handle_ptr ->
  let closed := ofstream_close s w in
  let gone := ofstream_dtor (fst closed) (snd closed) in
  hlog (snd gone) = hlog (snd closed) ++ [c_close_null] /\
  hfile (snd gone) = hfile (snd closed) /\
  count_close (hlog (snd gone)) = S (count_close (hlog w)).
Proof.
  intros Hfile closed gone.
  assert (Hcl : file (fst closed) = nullptr /\ rdbuf (fst closed) = None /\
                count_close (hlog (snd closed)) = S (count_close (hlog w))).
  { unfold closed, ofstream_close, bind, base_fstream_close. rewrite Hfile.
    unfold bind, PHYSFS_close, ret.
    destruct (lib_close (hfile w)) as [f1 r1].
    unfold delete_rdbuf. cbn [rdbuf].
    destruct (rdbuf s) as [b|].
    - unfold fbuf_dtor, bind, ret.
      pose proof (flush_no_close b (World f1 (hlog w ++ [c_close]))) as Hn.
      destruct (flush b _) as [r w2]. cbn [fst snd file rdbuf hlog] in *.
      rewrite Hn, count_close_app. cbn. repeat split. lia.
    - cbn [fst snd file rdbuf hlog ret]. unfold ret. cbn [fst snd hlog].
      rewrite count_close_app. cbn. repeat split. lia. }
  destruct Hcl as (Hf & Hr & Hn).
  unfold gone, ofstream_dtor, delete_rdbuf, base_fstream_dtor, bind.
  rewrite Hr, Hf. unfold ret, PHYSFS_close_nullptr, log.
  cbn [fst snd hlog hfile].
  split; [reflexivity|]. split; [reflexivity|].
  rewrite count_close_app, Hn. cbn. lia.
Qed.

End StreamsMore.

(** ** The list functions *)

Lemma push_back_null_terminated {A : Type} (xs : list A) (after : c_array A) :
  push_back_until_null (null_terminated xs after) = xs.
Proof.
  unfold null_terminated. induction xs as [|x xs IH]; [reflexivity|].
  cbn [fmap list_fmap app push_back_until_null]. f_equal. exact IH.
Qed.

(** X15. The functions that copy a NULL-terminated array of the library
    into a vector return the entries before the first null pointer, all
    of them, once each and in the array's order, whatever lies behind
    the terminator; an array that starts with the terminator gives the
    empty vector. *)
Theorem list_functions_copy_until_null
    (A : Type) (archives : list A) (dirs paths : list string)
    (files : string -> list string) (directory : string)
    (junk1 : c_array A) (junk2 junk3 : c_array string)
    (junk4 : string -> c_array string) :
  supportedArchiveTypes A (null_terminated archives junk1) = archives /\
  getCdRomDirs (null_terminated dirs junk2) = dirs /\
  getSearchPath (null_terminated paths junk3) = paths /\
  enumerateFiles (fun d => null_terminated (files d) (junk4 d)) directory
    = files (c_str directory) /\
  getSearchPath (None :: junk3) = [].
Proof.
  unfold supportedArchiveTypes, getCdRomDirs, getSearchPath, enumerateFiles.
  rewrite !push_back_null_terminated. repeat split.
Qed.

(** ** More on the adapter, for every handle *)

Section AdapterMore.
Context {File : Type} `{PhysFS File}.

(** X1. [overflow] first flushes.  If the flush fails, the result is the
    end-of-stream marker and the adapter is as before: the pending bytes
    stay pending and the character is not stored.  If it succeeds, the
    put area becomes the whole buffer, the result is [c], and a
    character other than the marker is the one pending byte, at the
    start of the buffer.  For [sputc] on a full put area this means the
    character itself is pending afterwards, whatever its value. *)
Theorem overflow_spec (this : fbuf) (c : int_type) (w : world File) :
  forall r w1, flush this w = (r, w1) ->
    (r < 0 -> overflow this c w = (traits_eof, this, w1)) /\
    (0 <= r ->
     exists this',
       overflow this c w = (c, this', w1) /\
       pbase this' = 0 /\ epptr this' = bufferSize this /\
       gptr this' = gptr this /\ egptr this' = egptr this /\
       (c = traits_eof -> this' = setp this 0 (0 + bufferSize this)) /\
       (c <> traits_eof -> 0 < Z.of_nat (length (buffer this)) ->
        pptr this' = 1 /\
        slice this' (pbase this') (pending this') = [to_char_type c])) /\
    (forall ch : char,
       epptr this <= pptr this -> 0 <= r ->
       0 < Z.of_nat (length (buffer this)) ->
       exists this',
         sputc this ch w = (to_int_type ch, this', w1) /\
         slice this' (pbase this') (pending this') = [ch]).
Proof.
  intros r w1 Hf.
  assert (Hstore : forall x : char,
    0 < Z.of_nat (length (buffer this)) ->
    let this' := pbump (poke (setp this 0 (0 + bufferSize this)) 0 x) 1 in
    pbase this' = 0 /\ epptr this' = bufferSize this /\
    gptr this' = gptr this /\ egptr this' = egptr this /\
    pptr this' = 1 /\ slice this' (pbase this') (pending this') = [x]).
  { intros x Hlen. cbv zeta.
    set (this0 := setp this 0 (0 + bufferSize this)).
    pose proof (put_char_facts this0 x) as Hfacts. cbv zeta in Hfacts.
    change (pptr this0) with 0 in Hfacts.
    set (this' := pbump (poke this0 0 x) 1) in *.
    destruct Hfacts as (Hsl & Hpp & Hpb & Hep & _ & _ & _ & Hg & He).
    { cbn [this0 setp buffer]. lia. }
    rewrite slice_zero in Hsl.
    split; [exact Hpb|]. split; [exact Hep|]. split; [exact Hg|].
    split; [exact He|]. split; [exact Hpp|].
    unfold pending. rewrite Hpb, Hpp. exact Hsl. }
  split; [|split].
  - intros Hr. unfold overflow, bind. rewrite Hf.
    destruct (r <? 0) eqn:E; [reflexivity | lia].
  - intros Hr. unfold overflow, bind. rewrite Hf.
    destruct (r <? 0) eqn:E; [lia|].
    destruct (c =? traits_eof) eqn:Ec.
    + apply Z.eqb_eq in Ec.
      exists (setp this 0 (0 + bufferSize this)).
      split; [reflexivity|]. split; [reflexivity|]. split; [reflexivity|].
      split; [reflexivity|]. split; [reflexivity|].
      split; [reflexivity | contradiction].
    + apply Z.eqb_neq in Ec. eexists. split; [reflexivity|].
      assert (Hrest : forall x,
        let this' := pbump (poke (setp this 0 (0 + bufferSize this)) 0 x) 1 in
        pbase this' = 0 /\ epptr this' = bufferSize this /\
        gptr this' = gptr this /\ egptr this' = egptr this).
      { intros x. unfold poke. cbn [pptr setp]. change (0 <? 0) with false.
        cbv iota. repeat split. }
      destruct (Hrest (to_char_type c)) as (Hpb & Hep & Hg & He).
      split; [exact Hpb|]. split; [exact Hep|]. split; [exact Hg|].
      split; [exact He|]. split; [contradiction|].
      intros _ Hlen. destruct (Hstore (to_char_type c) Hlen)
        as (_ & _ & _ & _ & Hpp & Hsl).
      split; [exact Hpp | exact Hsl].
  - intros ch Hfull Hr Hlen.
    exists (pbump (poke (setp this 0 (0 + bufferSize this)) 0 ch) 1).
    split.
    + unfold sputc. destruct (pptr this <? epptr this) eqn:E; [lia|].
      unfold overflow, bind. rewrite Hf.
      destruct (r <? 0) eqn:Er; [lia|].
      rewrite to_int_type_not_eof, to_char_type_to_int_type. reflexivity.
    + apply (Hstore ch Hlen).
Qed.

(** X2. [sync] returns what [flush] returns and makes the put area the
    whole, empty buffer in either case: after a failed [sync] nothing is
    pending any more, and a second [sync] reports success without a call
    on the handle. *)
Theorem sync_resets_put_area (this : fbuf) (w : world File) :
  let res := sync this w in
  let this' := snd (fst res) in
  fst (fst res) = fst (flush this w) /\
  snd res = snd (flush this w) /\
  pending this' = 0 /\ pbase this' = 0 /\ epptr this' = bufferSize this /\
  buffer this' = buffer this /\
  forall w2 : world File, sync this' w2 = (0, this', w2).
Proof.
  unfold sync, bind. destruct (flush this w) as [r w1]. cbn [fst snd ret].
  unfold ret. cbn [fst snd]. repeat split.
Qed.

(** X17. [sgetc] does not consume: when it returns a byte, [sgetc] again
    returns the same byte with no call on the handle, and [sbumpc]
    returns that byte, stepping over it, also with no call. *)
Theorem sgetc_then_sbumpc (this : fbuf) (w : world File) :
  forall r this' w',
    sgetc this w = (r, this', w') -> r <> traits_eof ->
    sgetc this' w' = (r, this', w') /\
    sbumpc this' w' = (r, gbump this' 1, w').
Proof.
  intros r this' w'. unfold sgetc at 1.
  destruct (gptr this <? egptr this) eqn:E.
  - intros Heq Hne. injection Heq as <- <- <-.
    unfold sgetc, sbumpc. rewrite E. split; reflexivity.
  - unfold underflow, bind, PHYSFS_eof, PHYSFS_readBytes.
    destruct (lib_eof (hfile w)).
    { intros Heq Hne. injection Heq as <- _ _. contradiction. }
    cbn [hfile hlog log].
    destruct (lib_readBytes (hfile w) (bufferSize this)) as [[f data] n].
    destruct (n <? 1) eqn:En.
    { intros Heq Hne. injection Heq as <- _ _. contradiction. }
    intros Heq Hne. unfold ret in Heq. injection Heq as <- <- <-.
    unfold sgetc, sbumpc. cbn [gptr egptr setg].
    destruct (0 <? 0 + n) eqn:E0; [|lia]. split; reflexivity.
Qed.

(** *** Invariants *)

Lemma put_ok_store_first (this : fbuf) (x : char) :
  put_ok this ->
  put_ok (pbump (poke (setp this 0 (0 + bufferSize this)) 0 x) 1).
Proof.
  intros [Hb Hp He Hl Hs]. unfold poke. cbn [pptr setp].
  change (0 <? 0) with false. cbv iota.
  constructor; cbn [pbase pptr epptr bufferSize buffer pbump set_buffer setp];
    try lia.
  rewrite length_insert. exact Hl.
Qed.

Lemma put_ok_sputc (this : fbuf) (c : char) (w : world File) :
  put_ok this -> put_ok (snd (fst (sputc this c w))).
Proof.
  intros Hok. pose proof Hok as [Hb Hp He Hl Hs].
  destruct (Z.lt_ge_cases (pptr this) (epptr this)) as [Hroom|Hfull].
  - rewrite sputc_room by exact Hroom. cbn [fst snd].
    destruct (put_char_facts this c)
      as (_ & Hpp & Hpb & Hep & Hbs & Hlen & _); [lia|].
    constructor; lia.
  - unfold sputc. destruct (pptr this <? epptr this) eqn:E; [lia|].
    unfold overflow, bind. destruct (flush this w) as [r w1].
    destruct (r <? 0); [exact Hok|].
    rewrite to_int_type_not_eof. unfold ret. cbn [fst snd].
    apply put_ok_store_first. exact Hok.
Qed.

Lemma put_ok_sputn (s : list char) :
  forall (this : fbuf) (w : world File),
    put_ok this -> put_ok (snd (fst (sputn this s w))).
Proof.
  induction s as [|c s IH]; intros this w Hok; [exact Hok|].
  cbn [sputn]. unfold bind.
  pose proof (put_ok_sputc this c w Hok) as H1.
  destruct (sputc this c w) as [[i this1] w1]. cbn [fst snd] in H1.
  destruct (i =? traits_eof); [exact H1|].
  pose proof (IH this1 w1 H1) as H2.
  destruct (sputn this1 s w1) as [[n this2] w2]. exact H2.
Qed.

Lemma length_blit (this : fbuf) (data : list char) :
  Z.of_nat (length (buffer this)) = bufferSize this ->
  length (buffer (blit this data (bufferSize this))) = length (buffer this).
Proof.
  intros Hl. unfold blit. cbn [buffer set_buffer].
  rewrite length_app, length_drop, length_take. lia.
Qed.

Lemma put_ok_blit (this : fbuf) (data : list char) :
  put_ok this -> put_ok (blit this data (bufferSize this)).
Proof.
  intros [Hb Hp He Hl Hs]. pose proof (length_blit this data Hl) as Hbl.
  constructor; try assumption.
  change (bufferSize (blit this data (bufferSize this))) with (bufferSize this).
  rewrite Hbl. exact Hl.
Qed.

Lemma put_ok_setg (this : fbuf) (a b c : Z) :
  put_ok this -> put_ok (setg this a b c).
Proof. intros [Hb Hp He Hl Hs]. constructor; assumption. Qed.

Lemma put_ok_reset_areas (this : fbuf) (mode : Z) :
  put_ok this -> put_ok (reset_areas this mode).
Proof.
  intros [Hb Hp He Hl Hs]. unfold reset_areas.
  destruct (has_bit mode ios_in), (has_bit mode ios_out);
    constructor; cbn [pbase pptr epptr bufferSize buffer setg setp]; lia.
Qed.

(** X3. The put area stays inside the buffer.  Starting from an adapter
    whose put area is [0, pptr) within [0, epptr), inside a buffer of
    [bufferSize] bytes (as the constructor leaves it), every operation
    of the adapter leaves it so, whatever the handle answers: no
    character is stored outside the buffer. *)
Theorem put_area_invariant (this : fbuf) (w : world File) :
  put_ok this ->
  (forall c, put_ok (snd (fst (sputc this c w)))) /\
  (forall s, put_ok (snd (fst (sputn this s w)))) /\
  (forall c, put_ok (snd (fst (overflow this c w)))) /\
  put_ok (snd (fst (sync this w))) /\
  put_ok (snd (fst (underflow this w))) /\
  (forall pos dir mode, put_ok (snd (fst (seekoff this pos dir mode w)))) /\
  (forall pos mode, put_ok (snd (fst (seekpos this pos mode w)))).
Proof.
  intros Hok. pose proof Hok as [Hb Hp He Hl Hs].
  split; [intros c; apply put_ok_sputc; exact Hok|].
  split; [intros s; apply put_ok_sputn; exact Hok|].
  split; [|split; [|split; [|split]]].
  - intros c. unfold overflow, bind. destruct (flush this w) as [r w1].
    destruct (r <? 0); [exact Hok|]. unfold ret. cbn [fst snd].
    destruct (c =? traits_eof).
    + constructor; cbn [pbase pptr epptr bufferSize buffer setp]; lia.
    + apply put_ok_store_first. exact Hok.
  - unfold sync, bind. destruct (flush this w) as [r w1]. cbn [fst snd ret].
    unfold ret. cbn [fst snd].
    constructor; cbn [pbase pptr epptr bufferSize buffer setp]; lia.
  - unfold underflow, bind, PHYSFS_eof, PHYSFS_readBytes.
    destruct (lib_eof (hfile w)); [exact Hok|]. cbn [hfile hlog log].
    destruct (lib_readBytes (hfile w) (bufferSize this)) as [[f data] n].
    destruct (n <? 1); unfold ret; cbn [fst snd].
    + apply put_ok_blit. exact Hok.
    + apply put_ok_setg, put_ok_blit. exact Hok.
  - intros pos dir mode.
    destruct (seek_shape this mode w (seekoff this pos dir mode w))
      as (-> & _); [left; eauto|]. apply put_ok_reset_areas. exact Hok.
  - intros pos mode.
    destruct (seek_shape this mode w (seekpos this pos mode w))
      as (-> & _); [right; eauto|]. apply put_ok_reset_areas. exact Hok.
Qed.

Lemma get_ok_reset_areas (this : fbuf) (mode : Z) :
  get_ok this -> get_ok (reset_areas this mode).
Proof.
  intros [Hp He Hl Hs]. unfold reset_areas.
  destruct (has_bit mode ios_in), (has_bit mode ios_out);
    constructor; cbn [gptr egptr bufferSize buffer setg setp]; lia.
Qed.

(** X4. The get area stays inside the buffer.  From an adapter whose get
    area lies within a buffer of [bufferSize] bytes, a refill from a
    handle that reports no more bytes than were asked for leaves it so,
    and so do the reads built on it; the seeks and the writing
    operations leave it so whatever the handle answers. *)
Theorem get_area_invariant (this : fbuf) (w : world File) :
  get_ok this ->
  (forall f data n,
     lib_readBytes (hfile w) (bufferSize this) = (f, data, n) ->
     n <= bufferSize this ->
     get_ok (snd (fst (underflow this w))) /\
     get_ok (snd (fst (sgetc this w))) /\
     get_ok (snd (fst (sbumpc this w)))) /\
  (forall pos dir mode, get_ok (snd (fst (seekoff this pos dir mode w)))) /\
  (forall pos mode, get_ok (snd (fst (seekpos this pos mode w)))) /\
  get_ok (snd (fst (sync this w))).
Proof.
  intros Hok. pose proof Hok as [Hp He Hl Hs].
  split; [|split; [|split]].
  - intros f data n Hr Hn.
    pose proof (length_blit this data Hl) as Hbl.
    assert (Hu : get_ok (snd (fst (underflow this w))) /\
                 get_ok (snd (fst (uflow this w)))).
    { unfold uflow, underflow, bind, PHYSFS_eof, PHYSFS_readBytes.
      destruct (lib_eof (hfile w)).
      { cbn [fst snd ret]. change (traits_eof =? traits_eof) with true.
        split; exact Hok. }
      cbn [hfile hlog log]. rewrite Hr.
      destruct (n <? 1) eqn:En; unfold ret; cbv beta iota.
      - change (traits_eof =? traits_eof) with true. cbn [fst snd].
        split; constructor; unfold blit;
          cbn [gptr egptr bufferSize buffer set_buffer]; try lia;
          rewrite length_app, length_drop, length_take; lia.
      - rewrite to_int_type_not_eof. cbn [fst snd].
        split; constructor;
          cbn [gptr egptr bufferSize gbump setg]; unfold blit;
          cbn [gptr egptr bufferSize buffer set_buffer gbump setg]; try lia;
          rewrite length_app, length_drop, length_take; lia. }
    destruct Hu as (Hu1 & Hu2).
    split; [exact Hu1|]. split.
    + unfold sgetc. destruct (gptr this <? egptr this); [exact Hok | exact Hu1].
    + unfold sbumpc. destruct (gptr this <? egptr this) eqn:E; [|exact Hu2].
      cbn [fst snd ret]. constructor; cbn [gptr egptr bufferSize buffer gbump];
        lia.
  - intros pos dir mode.
    destruct (seek_shape this mode w (seekoff this pos dir mode w))
      as (-> & _); [left; eauto|]. apply get_ok_reset_areas. exact Hok.
  - intros pos mode.
    destruct (seek_shape this mode w (seekpos this pos mode w))
      as (-> & _); [right; eauto|]. apply get_ok_reset_areas. exact Hok.
  - unfold sync, bind. destruct (flush this w) as [r w1]. cbn [fst snd ret].
    unfold ret. cbn [fst snd].
    constructor; cbn [gptr egptr bufferSize buffer setp]; lia.
Qed.

End AdapterMore.

(** ** The adapter over the in-memory file *)

Lemma length_prefix (l : list char) (p : nat) :
  length (take p l ++ replicate (p - length l)%nat "000"%byte) = p.
Proof. rewrite length_app, length_take, length_replicate. lia. Qed.

Lemma length_overwrite (l : list char) (p : nat) (d : list char) :
  (p + length d <= length (overwrite l p d))%nat.
Proof.
  unfold overwrite. rewrite !length_app, length_take, length_replicate. lia.
Qed.

Lemma overwrite_nil (l : list char) (p : nat) :
  (p <= length l)%nat -> overwrite l p [] = l.
Proof.
  intros Hp. unfold overwrite. cbn [length app].
  replace (p - length l)%nat with 0%nat by lia. cbn [replicate app].
  rewrite Nat.add_0_r. apply take_drop.
Qed.

Lemma overwrite_app (l : list char) (p : nat) (d1 d2 : list char) :
  overwrite (overwrite l p d1) (p + length d1) d2 = overwrite l p (d1 ++ d2).
Proof.
  pose proof (length_overwrite l p d1) as Hlen.
  unfold overwrite at 1.
  replace (p + length d1 - length (overwrite l p d1))%nat with 0%nat by lia.
  cbn [replicate app]. unfold overwrite.
  set (A := take p l ++ replicate (p - length l)%nat "000"%byte).
  assert (HA : length A = p) by apply length_prefix.
  replace (take p l ++ replicate (p - length l)%nat "000"%byte ++ d1
             ++ drop (p + length d1)%nat l)
    with ((A ++ d1) ++ drop (p + length d1)%nat l)
    by (unfold A; rewrite <- !app_assoc; reflexivity).
  rewrite take_app_length' by (rewrite length_app; lia).
  rewrite drop_app_add' by (rewrite length_app; lia).
  rewrite drop_drop, length_app.
  replace (take p l ++ replicate (p - length l)%nat "000"%byte ++ (d1 ++ d2)
             ++ drop (p + (length d1 + length d2))%nat l)
    with (A ++ (d1 ++ d2) ++ drop (p + (length d1 + length d2))%nat l)
    by (unfold A; rewrite <- !app_assoc; reflexivity).
  rewrite <- !app_assoc. rewrite Nat.add_assoc. reflexivity.
Qed.

Lemma overwrite_start (l d : list char) :
  overwrite l 0 d = d ++ drop (length d) l.
Proof. reflexivity. Qed.

Lemma take_drop_length (l : list char) (k : nat) :
  take k l ++ drop (length (take k l)) l = l.
Proof.
  rewrite length_take.
  destruct (Nat.min_spec k (length l)) as [[_ ->]|[Hle ->]].
  - apply take_drop.
  - rewrite drop_all, app_nil_r. apply take_ge. exact Hle.
Qed.

Section OverMemFile.
Variable dir : directory.

#[local] Instance mem_physfs : PhysFS MemFile := MemFS dir.

(** *** Writing *)

Lemma flush_mem (this : fbuf) (w : world MemFile) :
  put_ok this -> mem_ok (hfile w) ->
  exists w',
    flush this w = (0, w') /\
    content (hfile w') = committed this (hfile w) /\
    position (hfile w') = put_position this (hfile w) /\
    mem_ok (hfile w').
Proof.
  intros [Hb Hp He Hl Hs] Hm.
  destruct (Z.eq_dec (pptr this) 0) as [Hz|Hnz].
  - exists w. rewrite flush_nothing by lia.
    unfold committed, put_position. rewrite Hz, slice_zero.
    rewrite overwrite_nil by exact Hm. cbn [Z.to_nat].
    rewrite Nat.add_0_r. repeat split. exact Hm.
  - set (len := pptr this - pbase this).
    set (data := slice this (pbase this) len).
    assert (Hlen : len = pptr this) by (unfold len; lia).
    assert (Hdl : Z.of_nat (length data) = len).
    { apply length_slice; lia. }
    assert (Hw : lib_writeBytes (hfile w) data (to_uint64 len) =
                 (Mem (overwrite (content (hfile w)) (position (hfile w)) data)
                      (position (hfile w) + length data), len)).
    { rewrite to_uint64_small by lia. cbn [lib_writeBytes mem_physfs MemFS].
      unfold mem_writeBytes. rewrite take_ge by lia. rewrite Hdl.
      reflexivity. }
    eexists. rewrite (flush_pending this w _ _ ltac:(lia) Hw).
    rewrite Z.ltb_irrefl. split; [reflexivity|]. cbn [hfile content position].
    unfold committed, put_position, mem_ok. cbn [content position].
    unfold data. rewrite Hb, Hlen.
    assert (Hn : length (slice this 0 (pptr this)) = Z.to_nat (pptr this)).
    { pose proof (length_slice this 0 (pptr this)). lia. }
    rewrite Hn. repeat split.
    pose proof (length_overwrite (content (hfile w)) (position (hfile w))
                  (slice this 0 (pptr this))). lia.
Qed.

Lemma sputc_mem (this : fbuf) (c : char) (w : world MemFile) :
  put_ok this -> mem_ok (hfile w) ->
  exists this' w',
    sputc this c w = (to_int_type c, this', w') /\
    put_ok this' /\ mem_ok (hfile w') /\
    committed this' (hfile w') =
      overwrite (committed this (hfile w)) (put_position this (hfile w)) [c] /\
    put_position this' (hfile w') = S (put_position this (hfile w)) /\
    gptr this' = gptr this /\ egptr this' = egptr this /\
    bufferSize this' = bufferSize this.
Proof.
  intros Hok Hm. pose proof Hok as [Hb Hp He Hl Hs].
  assert (Hn : length (slice this 0 (pptr this)) = Z.to_nat (pptr this)).
  { pose proof (length_slice this 0 (pptr this)). lia. }
  destruct (Z.lt_ge_cases (pptr this) (epptr this)) as [Hroom|Hfull].
  - exists (pbump (poke this (pptr this) c) 1), w.
    rewrite sputc_room by exact Hroom.
    destruct (put_char_facts this c)
      as (Hsl & Hpp & Hpb & Hep & Hbs & Hlen & _ & Hg & Heg); [lia|].
    split; [reflexivity|]. split; [|split; [exact Hm|]].
    + constructor; lia.
    + unfold committed, put_position.
      rewrite Hsl, <- overwrite_app, Hn, Hpp. repeat split; try assumption.
      lia.
  - assert (Hov : sputc this c w = overflow this (to_int_type c) w).
    { unfold sputc. destruct (pptr this <? epptr this) eqn:E; [lia|].
      reflexivity. }
    destruct (flush_mem this w Hok Hm) as (w1 & Hf & Hc1 & Hp1 & Hm1).
    set (this2 := setp this 0 (0 + bufferSize this)).
    exists (pbump (poke this2 (pptr this2) c) 1), w1.
    rewrite Hov. unfold overflow, bind. rewrite Hf.
    change (0 <? 0) with false. cbv iota.
    rewrite to_int_type_not_eof, to_char_type_to_int_type.
    fold this2. split; [reflexivity|].
    destruct (put_char_facts this2 c)
      as (Hsl & Hpp & Hpb & Hep & Hbs & Hlen & _ & Hg & Heg).
    { cbn [this2 pptr setp buffer]. lia. }
    split; [|split; [exact Hm1|]].
    + constructor; cbn [this2 pptr pbase epptr setp bufferSize buffer] in *;
        lia.
    + split; [|split].
      * unfold committed at 1. rewrite Hsl, Hc1, Hp1.
        cbn [this2 pptr setp]. rewrite slice_zero. reflexivity.
      * unfold put_position at 1. rewrite Hpp, Hp1.
        cbn [this2 pptr setp]. lia.
      * repeat split; assumption.
Qed.

Lemma sputn_mem (s : list char) :
  forall (this : fbuf) (w : world MemFile),
    put_ok this -> mem_ok (hfile w) ->
    exists this' w',
      sputn this s w = (Z.of_nat (length s), this', w') /\
      put_ok this' /\ mem_ok (hfile w') /\
      committed this' (hfile w') =
        overwrite (committed this (hfile w)) (put_position this (hfile w)) s /\
      put_position this' (hfile w') =
        (put_position this (hfile w) + length s)%nat /\
      gptr this' = gptr this /\ egptr this' = egptr this /\
      bufferSize this' = bufferSize this.
Proof.
  induction s as [|c s IH]; intros this w Hok Hm.
  - exists this, w. cbn [sputn length]. unfold ret.
    rewrite Nat.add_0_r.
    split; [reflexivity|]. split; [exact Hok|]. split; [exact Hm|].
    split; [|repeat split].
    unfold committed. rewrite <- (app_nil_r (slice this 0 (pptr this))) at 1.
    rewrite <- overwrite_app.
    assert (Hn : length (slice this 0 (pptr this)) = Z.to_nat (pptr this)).
    { destruct Hok. pose proof (length_slice this 0 (pptr this)). lia. }
    rewrite Hn. reflexivity.
  - destruct (sputc_mem this c w Hok Hm)
      as (this1 & w1 & Hrun1 & Hok1 & Hm1 & Hc1 & Hp1 & Hg1 & He1 & Hs1).
    destruct (IH this1 w1 Hok1 Hm1)
      as (this2 & w2 & Hrun2 & Hok2 & Hm2 & Hc2 & Hp2 & Hg2 & He2 & Hs2).
    exists this2, w2. cbn [sputn]. unfold bind at 1. rewrite Hrun1.
    rewrite to_int_type_not_eof. unfold bind. rewrite Hrun2. unfold ret.
    split; [f_equal; f_equal; cbn [length]; lia|].
    split; [exact Hok2|]. split; [exact Hm2|]. split; [|split].
    + rewrite Hc2, Hc1, Hp1.
      replace (S (put_position this (hfile w)))
        with (put_position this (hfile w) + length [c])%nat
        by (cbn [length]; lia).
      rewrite overwrite_app. reflexivity.
    + rewrite Hp2, Hp1. cbn [length]. lia.
    + repeat split; congruence.
Qed.

Lemma sync_mem (this : fbuf) (w : world MemFile) :
  put_ok this -> mem_ok (hfile w) ->
  exists w',
    sync this w = (0, setp this 0 (0 + bufferSize this), w') /\
    content (hfile w') = committed this (hfile w) /\
    position (hfile w') = put_position this (hfile w) /\
    mem_ok (hfile w').
Proof.
  intros Hok Hm.
  destruct (flush_mem this w Hok Hm) as (w1 & Hf & Hc1 & Hp1 & Hm1).
  exists w1. unfold sync, bind. rewrite Hf. repeat split; assumption.
Qed.

(** *** Seeking to the start *)

Lemma seekpos_start_mem (this : fbuf) (mode : Z) (w : world MemFile) :
  seekpos this 0 mode w =
    (0, reset_areas this mode,
     World (Mem (content (hfile w)) 0) (hlog w ++ [c_seek 0; c_tell])) /\
  seekoff this 0 ios_beg mode w = seekpos this 0 mode w.
Proof.
  assert (Hs : lib_seek (hfile w) (to_uint64 0)
               = (Mem (content (hfile w)) 0, 1)).
  { cbn [lib_seek mem_physfs MemFS]. unfold mem_seek.
    rewrite bool_decide_eq_true_2; [reflexivity|].
    change (to_uint64 0) with 0. lia. }
  rewrite (seekoff_beg_eq this 0 mode w _ _ Hs).
  rewrite (seekpos_eq this 0 mode w _ _ Hs).
  split; reflexivity.
Qed.

Lemma reset_areas_get (this : fbuf) (mode : Z) :
  gptr this = egptr this ->
  let this' := reset_areas this mode in
  gptr this' = egptr this /\ egptr this' = egptr this /\
  buffer this' = buffer this /\ bufferSize this' = bufferSize this.
Proof.
  intros Hg. unfold reset_areas.
  destruct (has_bit mode ios_in), (has_bit mode ios_out);
    cbn [gptr egptr buffer bufferSize setg setp]; repeat split;
    assumption.
Qed.

(** *** Reading *)

Lemma sbumpc_mem (this : fbuf) (w : world MemFile) :
  get_ok this ->
  exists r this' w',
    sbumpc this w = (r, this', w') /\ get_ok this' /\
    match upcoming this (hfile w) with
    | [] => r = traits_eof /\ upcoming this' (hfile w') = []
    | c :: rest => r = to_int_type c /\ upcoming this' (hfile w') = rest
    end.
Proof.
  intros Hok. pose proof Hok as [Hp He Hl Hs].
  destruct (Z.lt_ge_cases (gptr this) (egptr this)) as [Hin|Hout].
  - (* a byte is buffered *)
    assert (Hlk : is_Some (buffer this !! Z.to_nat (gptr this))).
    { apply lookup_lt_is_Some. lia. }
    destruct Hlk as [c Hc].
    exists (to_int_type c), (gbump this 1), w.
    assert (Hpeek : peek this (gptr this) = c).
    { unfold peek. destruct (gptr this <? 0) eqn:E; [lia|].
      rewrite Hc. reflexivity. }
    split.
    { unfold sbumpc. destruct (gptr this <? egptr this) eqn:E; [|lia].
      rewrite Hpeek. reflexivity. }
    split; [constructor; cbn [gptr egptr buffer bufferSize gbump]; lia|].
    unfold upcoming, unconsumed, slice.
    cbn [gptr egptr buffer gbump].
    rewrite (drop_S _ c _ Hc).
    replace (Z.to_nat (egptr this - gptr this))
      with (S (Z.to_nat (egptr this - (gptr this + 1)))) by lia.
    cbn [take app]. split; [reflexivity|].
    replace (Z.to_nat (gptr this + 1)) with (S (Z.to_nat (gptr this))) by lia.
    reflexivity.
  - (* the get area is exhausted: uflow *)
    assert (Hu : sbumpc this w = uflow this w).
    { unfold sbumpc. destruct (gptr this <? egptr this) eqn:E; [lia|].
      reflexivity. }
    assert (Hup : upcoming this (hfile w)
                  = drop (position (hfile w)) (content (hfile w))).
    { unfold upcoming, unconsumed.
      replace (egptr this - gptr this) with 0 by lia.
      rewrite slice_zero. reflexivity. }
    rewrite Hu, Hup. unfold uflow, underflow, bind, PHYSFS_eof.
    cbn [lib_eof mem_physfs MemFS]. unfold mem_eof.
    destruct (decide (length (content (hfile w)) <= position (hfile w))%nat)
      as [Heof|Hmore].
    + rewrite bool_decide_eq_true_2 by exact Heof.
      exists traits_eof, this, (log c_eof w). unfold ret.
      split; [reflexivity|]. split; [exact Hok|].
      rewrite drop_ge by exact Heof. split; [reflexivity|].
      unfold upcoming, unconsumed.
      replace (egptr this - gptr this) with 0 by lia.
      rewrite slice_zero. cbn [app hfile log].
      apply drop_ge. exact Heof.
    + rewrite bool_decide_eq_false_2 by exact Hmore.
      unfold PHYSFS_readBytes. cbn [hfile hlog log].
      cbn [lib_readBytes mem_physfs MemFS]. unfold mem_readBytes.
      remember (take (Z.to_nat (bufferSize this))
                  (drop (position (hfile w)) (content (hfile w))))
        as data eqn:Hdef.
      assert (Hdl : (1 <= length data <= Z.to_nat (bufferSize this))%nat).
      { rewrite Hdef, length_take, length_drop. lia. }
      assert (Hsplit : drop (position (hfile w)) (content (hfile w))
                = data ++ drop (position (hfile w) + length data)
                            (content (hfile w))).
      { rewrite <- drop_drop, Hdef. symmetry. apply take_drop_length. }
      destruct data as [|c rest]; [cbn [length] in Hdl; lia|].
      set (data := c :: rest) in *.
      destruct (Z.of_nat (length data) <? 1) eqn:E; [lia|].
      unfold ret.
      set (this1 := setg (blit this data (bufferSize this)) 0 0
                      (0 + Z.of_nat (length data))).
      assert (Hbuf : buffer this1 = data ++ drop (length data) (buffer this)).
      { unfold this1, blit. cbn [buffer setg set_buffer].
        rewrite take_ge by lia. reflexivity. }
      assert (Hpk : peek this1 (gptr this1) = c).
      { unfold peek. cbn [this1 gptr setg]. change (0 <? 0) with false.
        cbv iota. rewrite Hbuf. reflexivity. }
      rewrite Hpk, to_int_type_not_eof.
      exists (to_int_type c), (gbump this1 1),
        (World (Mem (content (hfile w)) (position (hfile w) + length data))
               ((hlog w ++ [c_eof]) ++ [c_readBytes (bufferSize this)])).
      split; [reflexivity|]. split.
      * constructor; cbn [gptr egptr bufferSize gbump this1 setg blit
          set_buffer]; try lia.
        change (buffer (gbump this1 1)) with (buffer this1).
        rewrite Hbuf, length_app, length_drop. lia.
      * rewrite Hsplit. unfold data at 1. cbn [app].
        split; [reflexivity|].
        unfold upcoming, unconsumed, slice.
        cbn [gptr egptr gbump this1 setg hfile content position].
        change (buffer (gbump this1 1)) with (buffer this1).
        rewrite Hbuf.
        replace (Z.to_nat (0 + Z.of_nat (length data) - (0 + 1)))
          with (length rest) by (unfold data; cbn [length]; lia).
        change (Z.to_nat (0 + 1)) with 1%nat.
        unfold data at 1. cbn [app drop].
        rewrite drop_0, take_app_length. reflexivity.
Qed.

Lemma sgetn_mem (n : nat) :
  forall (this : fbuf) (w : world MemFile),
    get_ok this ->
    exists this' w',
      sgetn this n w = (take n (upcoming this (hfile w)), this', w') /\
      get_ok this' /\
      upcoming this' (hfile w') = drop n (upcoming this (hfile w)).
Proof.
  induction n as [|n IH]; intros this w Hok.
  - exists this, w. rewrite take_0, drop_0.
    split; [reflexivity|]. split; [exact Hok|reflexivity].
  - destruct (sbumpc_mem this w Hok) as (r & this1 & w1 & Hrun & Hok1 & Hup).
    cbn [sgetn]. unfold bind at 1. rewrite Hrun.
    destruct (upcoming this (hfile w)) as [|c rest].
    + destruct Hup as [-> Hup1]. exists this1, w1.
      change (traits_eof =? traits_eof) with true. cbv iota. unfold ret.
      rewrite Hup1. split; [reflexivity|]. split; [exact Hok1|reflexivity].
    + destruct Hup as [-> Hup1].
      rewrite to_int_type_not_eof, to_char_type_to_int_type.
      destruct (IH this1 w1 Hok1) as (this2 & w2 & Hrun2 & Hok2 & Hup2).
      exists this2, w2. unfold bind. rewrite Hrun2. unfold ret.
      rewrite Hup1. cbn [take drop]. rewrite Hup2, Hup1.
      split; [reflexivity|]. split; [exact Hok2|reflexivity].
Qed.

(** Reading never changes the file and keeps the handle inside it. *)
Lemma sbumpc_mem_frame (this : fbuf) (w : world MemFile) :
  content (hfile (snd (sbumpc this w))) = content (hfile w) /\
  (mem_ok (hfile w) -> mem_ok (hfile (snd (sbumpc this w)))).
Proof.
  unfold sbumpc, uflow, underflow, bind, PHYSFS_eof, PHYSFS_readBytes, ret.
  destruct (gptr this <? egptr this); [split; [reflexivity | tauto]|].
  cbn [lib_eof lib_readBytes mem_physfs MemFS hfile hlog log].
  destruct (mem_eof (hfile w)); [split; [reflexivity | tauto]|].
  unfold mem_readBytes. change (hfile (log c_eof w)) with (hfile w).
  set (data := take (Z.to_nat (bufferSize this))
                 (drop (position (hfile w)) (content (hfile w)))).
  assert (Hd : (position (hfile w) <= length (content (hfile w)) ->
                position (hfile w) + length data
                <= length (content (hfile w)))%nat).
  { unfold data. rewrite length_take, length_drop. lia. }
  destruct (Z.of_nat (length data) <? 1); cbv beta iota zeta;
    [change (traits_eof =? traits_eof) with true
    |rewrite to_int_type_not_eof];
    cbn [snd hfile content position]; (split; [reflexivity | exact Hd]).
Qed.

Lemma sgetn_mem_frame (n : nat) :
  forall (this : fbuf) (w : world MemFile),
    content (hfile (snd (sgetn this n w))) = content (hfile w) /\
    (mem_ok (hfile w) -> mem_ok (hfile (snd (sgetn this n w)))).
Proof.
  induction n as [|n IH]; intros this w; [split; [reflexivity | tauto]|].
  cbn [sgetn]. unfold bind.
  destruct (sbumpc_mem_frame this w) as (Hc & Hm).
  destruct (sbumpc this w) as [[i this1] w1]. cbn [snd] in Hc, Hm.
  cbv beta iota.
  destruct (i =? traits_eof); [unfold ret; cbn [snd]; split; assumption|].
  destruct (IH this1 w1) as (Hc2 & Hm2).
  destruct (sgetn this1 n w1) as [[cs this2] w2]. unfold ret.
  cbn [snd] in *. split; [congruence | tauto].
Qed.

Lemma length_upcoming (this : fbuf) (f : MemFile) :
  get_ok this -> mem_ok f ->
  Z.of_nat (length (upcoming this f)) =
    unconsumed this + (Z.of_nat (length (content f)) - Z.of_nat (position f)).
Proof.
  intros [Hp He Hl Hs] Hm. unfold upcoming, mem_ok in *.
  rewrite length_app, Nat2Z.inj_add, length_drop.
  rewrite length_slice by (unfold unconsumed; lia). lia.
Qed.

(** X16. After [j] bytes were read from a fresh adapter, a seek by 0 from
    the current position reports [j], however many bytes the adapter
    holds in its buffer. *)
Lemma tell_after_read
    (init old : list char) (bs mode : Z) (log0 : list call) (j : nat) :
  0 < bs -> (j <= length old)%nat -> Z.of_nat (length old) < 2 ^ 64 ->
  let b0 := fbuf_ctor_with init bs in
  let w0 := World (Mem old 0) log0 in
  exists b1 w1,
    sgetn b0 j w0 = (take j old, b1, w1) /\
    Z.of_nat (position (hfile w1)) - unconsumed b1 = Z.of_nat j /\
    fst (fst (seekoff b1 0 ios_cur mode w1)) = Z.of_nat j.
Proof.
  intros Hbs Hj Hold b0 w0.
  destruct (fbuf_ctor_with_facts init bs)
    as (Hl & Hsz & _ & Hg & He & _).
  fold b0 in Hl, Hsz, Hg, He.
  assert (Hget0 : get_ok b0) by (constructor; lia).
  assert (Hm0 : mem_ok (hfile w0)) by (unfold mem_ok; cbn; lia).
  destruct (sgetn_mem j b0 w0 Hget0) as (b1 & w1 & Hrun & Hget1 & Hup1).
  destruct (sgetn_mem_frame j b0 w0) as (Hc1 & Hm1).
  rewrite Hrun in Hc1, Hm1. cbn [snd] in Hc1, Hm1. specialize (Hm1 Hm0).
  assert (Hup0 : upcoming b0 (hfile w0) = old).
  { unfold upcoming, unconsumed. rewrite Hg, He, Z.sub_diag, slice_zero.
    reflexivity. }
  rewrite Hup0 in Hrun, Hup1.
  pose proof (length_upcoming b1 (hfile w1) Hget1 Hm1) as Hlen.
  rewrite Hup1, length_drop, Hc1 in Hlen. cbn [w0 hfile content] in Hlen.
  assert (Hpos : Z.of_nat (position (hfile w1)) - unconsumed b1 = Z.of_nat j)
    by lia.
  exists b1, w1. split; [exact Hrun|]. split; [exact Hpos|].
  assert (Hseek : lib_seek (hfile w1)
            (to_uint64 ((lib_tell (hfile w1) + 0) - (egptr b1 - gptr b1)))
          = (Mem (content (hfile w1)) j, 1)).
  { cbn [lib_seek lib_tell mem_physfs MemFS]. unfold mem_tell.
    fold (unconsumed b1). rewrite Z.add_0_r, Hpos.
    rewrite to_uint64_small by lia. unfold mem_seek.
    rewrite bool_decide_eq_true_2.
    - rewrite Nat2Z.id. reflexivity.
    - rewrite Hc1. cbn [w0 hfile content]. lia. }
  rewrite (seekoff_cur_eq _ _ _ _ _ _ Hseek). cbn [fst].
  cbn [lib_tell mem_physfs MemFS]. reflexivity.
Qed.

(** C1. Over the in-memory file: a fresh adapter (any buffer size from
    1 up) on a handle at the start of a file (whatever the file holds),
    given the bytes [bytes] through [sputn], accepts them all; [pubsync]
    then succeeds and the file starts with [bytes]; a seek to the start
    (absolute, or by offset 0 from the beginning, in any mode) returns
    position 0; and reading [length bytes] characters with [sgetn]
    yields exactly [bytes]. *)
Theorem write_read_roundtrip
    (init old bytes : list char) (bs mode : Z) (log0 : list call) :
  0 < bs < 2 ^ 64 ->
  let b0 := fbuf_ctor_with init bs in
  let w0 := World (Mem old 0) log0 in
  exists b1 w1 b2 w2 b3 w3 b4 w4,
    sputn b0 bytes w0 = (Z.of_nat (length bytes), b1, w1) /\
    pubsync b1 w1 = (0, b2, w2) /\
    content (hfile w2) = bytes ++ drop (length bytes) old /\
    pubseekpos b2 0 mode w2 = (0, b3, w3) /\
    pubseekoff b2 0 ios_beg mode w2 = (0, b3, w3) /\
    sgetn b3 (length bytes) w3 = (bytes, b4, w4).
Proof.
  intros Hbs b0 w0.
  destruct (fbuf_ctor_with_facts init bs)
    as (Hl & Hsz & _ & Hg & He & Hpb & Hpp & Hep).
  fold b0 in Hl, Hsz, Hg, He, Hpb, Hpp, Hep.
  assert (Hput0 : put_ok b0) by (constructor; lia).
  assert (Hm0 : mem_ok (hfile w0)) by (unfold mem_ok; cbn; lia).
  destruct (sputn_mem bytes b0 w0 Hput0 Hm0)
    as (b1 & w1 & Hrun1 & Hput1 & Hm1 & Hc1 & Hp1 & Hg1 & He1 & Hs1).
  destruct (sync_mem b1 w1 Hput1 Hm1) as (w2 & Hrun2 & Hc2 & Hp2 & Hm2).
  set (b2 := setp b1 0 (0 + bufferSize b1)) in *.
  destruct (seekpos_start_mem b2 mode w2) as (Hrun3 & Hrun3').
  set (b3 := reset_areas b2 mode) in *.
  set (w3 := World (Mem (content (hfile w2)) 0)
               (hlog w2 ++ [c_seek 0; c_tell])) in *.
  assert (Hcontent : content (hfile w2) = bytes ++ drop (length bytes) old).
  { rewrite Hc2, Hc1. unfold committed, put_position.
    rewrite Hpp, slice_zero. cbn [hfile content position w0 Z.to_nat].
    rewrite overwrite_nil by lia. apply overwrite_start. }
  destruct (reset_areas_get b2 mode) as (Hg3 & He3 & Hb3 & Hs3).
  { cbn [b2 gptr egptr setp]. congruence. }
  fold b3 in Hg3, He3, Hb3, Hs3.
  cbn [b2 egptr buffer bufferSize setp] in Hg3, He3, Hb3, Hs3.
  assert (Hget3 : get_ok b3).
  { destruct Hput1. constructor; try lia; congruence. }
  destruct (sgetn_mem (length bytes) b3 w3 Hget3)
    as (b4 & w4 & Hrun4 & _ & _).
  assert (Hup3 : upcoming b3 (hfile w3) = bytes ++ drop (length bytes) old).
  { unfold upcoming, unconsumed.
    replace (egptr b3 - gptr b3) with 0 by lia.
    rewrite slice_zero. cbn [w3 hfile position content app].
    rewrite drop_0. exact Hcontent. }
  rewrite Hup3, take_app_length in Hrun4.
  exists b1, w1, b2, w2, b3, w3, b4, w4.
  unfold pubsync, pubseekpos, pubseekoff.
  rewrite Hrun3'. repeat split; assumption.
Qed.

(** X18. The same bytes through two handles, as the library has them (one
    to write, one to read): written through an adapter that is then
    destroyed without a flush, they are in the file; a fresh adapter on a
    handle opened on that file reads them back, and on a file that was
    empty before, the next read is the end of the stream. *)
Lemma write_destroy_reopen_read
    (init init' old bytes : list char) (bs bs' : Z) (log0 log1 : list call) :
  0 < bs < 2 ^ 64 -> 0 < bs' ->
  exists b1 w1 w2 b3 w3,
    sputn (fbuf_ctor_with init bs) bytes (World (Mem old 0) log0)
      = (Z.of_nat (length bytes), b1, w1) /\
    ofstream_dtor (Stream handle_ptr (Some b1)) w1
      = (Stream nullptr (Some b1), w2) /\
    content (hfile w2) = bytes ++ drop (length bytes) old /\
    sgetn (fbuf_ctor_with init' bs') (length bytes)
          (World (Mem (content (hfile w2)) 0) log1) = (bytes, b3, w3) /\
    (old = [] -> fst (fst (sbumpc b3 w3)) = traits_eof).
Proof.
  intros Hbs Hbs'.
  set (b0 := fbuf_ctor_with init bs). set (w0 := World (Mem old 0) log0).
  destruct (fbuf_ctor_with_facts init bs)
    as (Hl & Hsz & _ & _ & _ & Hpb & Hpp & Hep).
  fold b0 in Hl, Hsz, Hpb, Hpp, Hep.
  assert (Hput0 : put_ok b0) by (constructor; lia).
  assert (Hm0 : mem_ok (hfile w0)) by (unfold mem_ok; cbn; lia).
  destruct (sputn_mem bytes b0 w0 Hput0 Hm0)
    as (b1 & w1 & Hrun1 & Hput1 & Hm1 & Hc1 & _).
  destruct (flush_mem b1 w1 Hput1 Hm1) as (w2 & Hf & Hc2 & _ & _).
  assert (Hcontent : content (hfile w2) = bytes ++ drop (length bytes) old).
  { rewrite Hc2, Hc1. unfold committed, put_position.
    rewrite Hpp, slice_zero. cbn [hfile content position w0 Z.to_nat].
    rewrite overwrite_nil by lia. apply overwrite_start. }
  set (c0 := fbuf_ctor_with init' bs').
  set (v0 := World (Mem (content (hfile w2)) 0) log1).
  destruct (fbuf_ctor_with_facts init' bs')
    as (Hl' & Hsz' & _ & Hg' & He' & _).
  fold c0 in Hl', Hsz', Hg', He'.
  assert (Hget0 : get_ok c0) by (constructor; lia).
  destruct (sgetn_mem (length bytes) c0 v0 Hget0)
    as (b3 & w3 & Hrun3 & Hget3 & Hup3).
  assert (Hup0 : upcoming c0 (hfile v0) = bytes ++ drop (length bytes) old).
  { unfold upcoming, unconsumed. rewrite Hg', He', Z.sub_diag, slice_zero.
    cbn [v0 hfile position content app]. rewrite drop_0. exact Hcontent. }
  rewrite Hup0, take_app_length in Hrun3.
  rewrite Hup0, drop_app_length in Hup3.
  exists b1, w1, (World (hfile w2) (hlog w2 ++ [c_close])), b3, w3.
  split; [exact Hrun1|]. split; [|split; [exact Hcontent|split; [exact Hrun3|]]].
  - rewrite ofstream_dtor_live, Hf. reflexivity.
  - intros ->. rewrite drop_nil in Hup3.
    destruct (sbumpc_mem b3 w3 Hget3) as (r & b4 & w4 & Hrun4 & _ & Hr).
    rewrite Hup3 in Hr. rewrite Hrun4. cbn [fst]. tauto.
Qed.

(** *** More on seeking, reading and writing *)

Lemma seek_mem (f : MemFile) (p : Z) :
  0 <= p <= Z.of_nat (length (content f)) -> p < 2 ^ 64 ->
  lib_seek f (to_uint64 p) = (Mem (content f) (Z.to_nat p), 1).
Proof.
  intros Hp Hlt. rewrite to_uint64_small by lia.
  cbn [lib_seek mem_physfs MemFS]. unfold mem_seek.
  rewrite bool_decide_eq_true_2 by exact Hp. reflexivity.
Qed.

Lemma reset_areas_frame (this : fbuf) (mode : Z) :
  buffer (reset_areas this mode) = buffer this /\
  bufferSize (reset_areas this mode) = bufferSize this.
Proof.
  unfold reset_areas.
  destruct (has_bit mode ios_in), (has_bit mode ios_out); split; reflexivity.
Qed.

Lemma reset_areas_keeps_put (this : fbuf) (mode : Z) :
  has_bit mode ios_out = false ->
  pbase (reset_areas this mode) = pbase this /\
  pptr (reset_areas this mode) = pptr this /\
  epptr (reset_areas this mode) = epptr this.
Proof.
  intros Hb. unfold reset_areas. rewrite Hb.
  destruct (has_bit mode ios_in); repeat split.
Qed.

Lemma reset_areas_keeps_get (this : fbuf) (mode : Z) :
  has_bit mode ios_in = false ->
  gptr (reset_areas this mode) = gptr this /\
  egptr (reset_areas this mode) = egptr this.
Proof.
  intros Hb. unfold reset_areas. rewrite Hb.
  destruct (has_bit mode ios_out); repeat split.
Qed.

Lemma upcoming_exhausted (this : fbuf) (f : MemFile) :
  unconsumed this = 0 -> upcoming this f = drop (position f) (content f).
Proof.
  intros Hu. unfold upcoming. rewrite Hu, slice_zero. reflexivity.
Qed.

(** Reading [n] bytes after a reset of the get area. *)
Lemma sgetn_after_seek (this : fbuf) (mode : Z) (n p : nat)
    (c : list char) (l : list call) :
  get_ok this -> has_bit mode ios_in = true ->
  exists this2 w2,
    sgetn (reset_areas this mode) n (World (Mem c p) l)
      = (take n (drop p c), this2, w2).
Proof.
  intros Hok Hin.
  pose proof (get_ok_reset_areas this mode Hok) as Hok'.
  destruct (reset_areas_in this mode Hin) as (_ & Hg & He).
  destruct (sgetn_mem n (reset_areas this mode) (World (Mem c p) l) Hok')
    as (this2 & w2 & Hrun & _).
  rewrite upcoming_exhausted in Hrun by (unfold unconsumed; lia).
  exists this2, w2. exact Hrun.
Qed.

(** X5. An absolute seek (or one by offset from the start) to a position
    [p] inside the file, in a mode with the input bit, returns [p]; the
    next [n] characters read are the file's bytes from [p] on, as many
    as there are. *)
Theorem seek_then_read (this : fbuf) (p mode : Z) (n : nat) (w : world MemFile) :
  get_ok this -> has_bit mode ios_in = true ->
  0 <= p <= Z.of_nat (length (content (hfile w))) -> p < 2 ^ 64 ->
  exists w1 this2 w2,
    seekpos this p mode w = (p, reset_areas this mode, w1) /\
    seekoff this p ios_beg mode w = (p, reset_areas this mode, w1) /\
    sgetn (reset_areas this mode) n w1 =
      (take n (drop (Z.to_nat p) (content (hfile w))), this2, w2).
Proof.
  intros Hok Hin Hp Hlt.
  pose proof (seek_mem (hfile w) p Hp Hlt) as Hs.
  destruct (sgetn_after_seek this mode n (Z.to_nat p) (content (hfile w))
              (hlog w ++ [c_seek (to_uint64 p); c_tell]) Hok Hin)
    as (this2 & w2 & Hrun).
  eexists _, this2, w2.
  rewrite (seekpos_eq this p mode w _ _ Hs).
  rewrite (seekoff_beg_eq this p mode w _ _ Hs).
  cbn [lib_tell mem_physfs MemFS]. unfold mem_tell. cbn [position].
  rewrite Z2Nat.id by lia.
  split; [reflexivity|]. split; [reflexivity | exact Hrun].
Qed.

(** X6. A seek by offset [-k] from the end of a file of [len] bytes, in
    a mode with the input bit, returns [len - k]; the next characters
    read are the last [k] bytes of the file, and with [k = 0] the next
    read gives the end-of-stream marker. *)
Theorem seek_from_end_then_read
    (this : fbuf) (k mode : Z) (n : nat) (w : world MemFile) :
  let len := Z.of_nat (length (content (hfile w))) in
  get_ok this -> has_bit mode ios_in = true ->
  0 <= k <= len -> len < 2 ^ 64 ->
  exists w1 this2 w2,
    seekoff this (- k) ios_end mode w = (len - k, reset_areas this mode, w1) /\
    sgetn (reset_areas this mode) n w1 =
      (take n (drop (Z.to_nat (len - k)) (content (hfile w))), this2, w2) /\
    (k = 0 ->
     fst (fst (sbumpc (reset_areas this mode) w1)) = traits_eof /\
     fst (fst (sgetc (reset_areas this mode) w1)) = traits_eof).
Proof.
  intros len Hok Hin Hk Hlt.
  assert (Hs : lib_seek (hfile w) (to_uint64 (lib_fileLength (hfile w) + - k))
               = (Mem (content (hfile w)) (Z.to_nat (len - k)), 1)).
  { cbn [lib_fileLength mem_physfs MemFS]. unfold mem_fileLength. fold len.
    replace (len + - k) with (len - k) by lia.
    apply seek_mem; unfold len in *; lia. }
  destruct (sgetn_after_seek this mode n (Z.to_nat (len - k))
              (content (hfile w))
              (hlog w ++ [c_fileLength;
                          c_seek (to_uint64 (lib_fileLength (hfile w) + - k));
                          c_tell]) Hok Hin)
    as (this2 & w2 & Hrun).
  eexists _, this2, w2.
  rewrite (seekoff_end_eq this (- k) mode w _ _ Hs).
  cbn [lib_tell mem_physfs MemFS]. unfold mem_tell. cbn [position].
  rewrite Z2Nat.id by lia.
  split; [reflexivity|]. split; [exact Hrun|].
  intros ->.
  destruct (reset_areas_in this mode Hin) as (_ & Hg & He).
  set (w1 := World (Mem (content (hfile w)) (Z.to_nat (len - 0))) _).
  assert (Heof : lib_eof (hfile w1) = true).
  { cbn [lib_eof mem_physfs MemFS w1 hfile]. unfold mem_eof.
    apply bool_decide_eq_true_2. cbn [content position]. unfold len. lia. }
  rewrite sbumpc_at_eof, sgetc_at_eof
    by (assumption || (unfold unconsumed; lia)).
  split; reflexivity.
Qed.

(** X7. A seek in a mode without the output bit keeps the pending bytes,
    and moves the handle: the next [sync] writes them at the position
    sought, not where the handle stood when they were given. *)
Theorem seek_in_relocates_pending (this : fbuf) (p mode : Z) (w : world MemFile) :
  put_ok this -> has_bit mode ios_out = false ->
  0 <= p <= Z.of_nat (length (content (hfile w))) -> p < 2 ^ 64 ->
  exists w1 this2 w2,
    seekpos this p mode w = (p, reset_areas this mode, w1) /\
    pending (reset_areas this mode) = pending this /\
    slice (reset_areas this mode) (pbase this) (pending this)
      = slice this (pbase this) (pending this) /\
    sync (reset_areas this mode) w1 = (0, this2, w2) /\
    content (hfile w2) =
      overwrite (content (hfile w)) (Z.to_nat p)
                (slice this (pbase this) (pending this)).
Proof.
  intros Hok Hout Hp Hlt.
  pose proof (seek_mem (hfile w) p Hp Hlt) as Hs.
  destruct (reset_areas_keeps_put this mode Hout) as (Hpb & Hpp & Hep).
  destruct (reset_areas_frame this mode) as (Hbuf & Hbs).
  pose proof (put_ok_reset_areas this mode Hok) as Hok'.
  set (w1 := World (Mem (content (hfile w)) (Z.to_nat p))
               (hlog w ++ [c_seek (to_uint64 p); c_tell])).
  assert (Hm1 : mem_ok (hfile w1)).
  { unfold mem_ok. cbn [w1 hfile content position]. lia. }
  destruct (sync_mem (reset_areas this mode) w1 Hok' Hm1)
    as (w2 & Hrun & Hc2 & _).
  exists w1, (setp (reset_areas this mode) 0
                (0 + bufferSize (reset_areas this mode))), w2.
  rewrite (seekpos_eq this p mode w _ _ Hs).
  cbn [lib_tell mem_physfs MemFS]. unfold mem_tell. cbn [position].
  rewrite Z2Nat.id by lia.
  assert (Hsl : forall a b, slice (reset_areas this mode) a b = slice this a b).
  { intros a b. unfold slice. rewrite Hbuf. reflexivity. }
  split; [reflexivity|]. split; [unfold pending; lia|].
  split; [apply Hsl|]. split; [exact Hrun|].
  rewrite Hc2. unfold committed. cbn [w1 hfile content position].
  rewrite Hsl, Hpp. destruct Hok as [Hb _ _ _ _]. unfold pending.
  rewrite Hb, Z.sub_0_r. reflexivity.
Qed.

(** What a fresh adapter is left with after [j] bytes were read. *)
Lemma read_from_fresh
    (init old : list char) (bs : Z) (log0 : list call) (j : nat) :
  0 < bs -> (j <= length old)%nat ->
  exists b1 w1,
    sgetn (fbuf_ctor_with init bs) j (World (Mem old 0) log0)
      = (take j old, b1, w1) /\
    get_ok b1 /\ content (hfile w1) = old /\ mem_ok (hfile w1) /\
    upcoming b1 (hfile w1) = drop j old /\
    Z.of_nat (position (hfile w1)) - unconsumed b1 = Z.of_nat j.
Proof.
  intros Hbs Hj.
  set (b0 := fbuf_ctor_with init bs). set (w0 := World (Mem old 0) log0).
  destruct (fbuf_ctor_with_facts init bs) as (Hl & Hsz & _ & Hg & He & _).
  fold b0 in Hl, Hsz, Hg, He.
  assert (Hget0 : get_ok b0) by (constructor; lia).
  assert (Hm0 : mem_ok (hfile w0)) by (unfold mem_ok; cbn; lia).
  destruct (sgetn_mem j b0 w0 Hget0) as (b1 & w1 & Hrun & Hget1 & Hup1).
  destruct (sgetn_mem_frame j b0 w0) as (Hc1 & Hm1).
  rewrite Hrun in Hc1, Hm1. cbn [snd] in Hc1, Hm1. specialize (Hm1 Hm0).
  assert (Hup0 : upcoming b0 (hfile w0) = old).
  { rewrite upcoming_exhausted by (unfold unconsumed; lia). reflexivity. }
  rewrite Hup0 in Hrun, Hup1.
  pose proof (length_upcoming b1 (hfile w1) Hget1 Hm1) as Hlen.
  rewrite Hup1, length_drop, Hc1 in Hlen. cbn [w0 hfile content] in Hlen.
  exists b1, w1. split; [exact Hrun|]. split; [exact Hget1|].
  split; [exact Hc1|]. split; [exact Hm1|]. split; [exact Hup1 | lia].
Qed.

(** X8. A seek by 0 from the current position in a mode without the
    input bit (as [tellp] does) on an adapter that holds [u] unconsumed
    bytes returns the logical position [j] and moves the handle there,
    but keeps the get area: what is read next is the [u] buffered bytes
    and then the file from [j] on, so those [u] bytes are read twice. *)
Theorem tell_for_write_rereads
    (init old : list char) (bs mode : Z) (log0 : list call) (j m : nat) :
  0 < bs -> (j <= length old)%nat -> Z.of_nat (length old) < 2 ^ 64 ->
  has_bit mode ios_in = false ->
  exists b1 w1 w2 b3 w3,
    sgetn (fbuf_ctor_with init bs) j (World (Mem old 0) log0)
      = (take j old, b1, w1) /\
    seekoff b1 0 ios_cur mode w1 = (Z.of_nat j, reset_areas b1 mode, w2) /\
    sgetn (reset_areas b1 mode) m w2 =
      (take m (take (Z.to_nat (unconsumed b1)) (drop j old) ++ drop j old),
       b3, w3).
Proof.
  intros Hbs Hj Hold Hin.
  destruct (read_from_fresh init old bs log0 j Hbs Hj)
    as (b1 & w1 & Hrun & Hget1 & Hc1 & Hm1 & Hup1 & Hpos).
  assert (Hseek : lib_seek (hfile w1)
            (to_uint64 ((lib_tell (hfile w1) + 0) - (egptr b1 - gptr b1)))
          = (Mem (content (hfile w1)) j, 1)).
  { cbn [lib_tell mem_physfs MemFS]. unfold mem_tell.
    fold (unconsumed b1). rewrite Z.add_0_r, Hpos.
    rewrite seek_mem by (try rewrite Hc1; lia). rewrite Nat2Z.id. reflexivity. }
  destruct (reset_areas_keeps_get b1 mode Hin) as (Hg & He).
  destruct (reset_areas_frame b1 mode) as (Hbuf & Hbsz).
  pose proof (get_ok_reset_areas b1 mode Hget1) as Hget2.
  set (w2 := World (Mem (content (hfile w1)) j)
               (hlog w1 ++ [c_tell;
                  c_seek (to_uint64 ((lib_tell (hfile w1) + 0)
                                     - (egptr b1 - gptr b1)));
                  c_tell])).
  destruct (sgetn_mem m (reset_areas b1 mode) w2 Hget2)
    as (b3 & w3 & Hrun3 & _).
  assert (Hsl : slice b1 (gptr b1) (unconsumed b1)
                = take (Z.to_nat (unconsumed b1)) (drop j old)).
  { rewrite <- Hup1. unfold upcoming.
    rewrite take_app_length'; [reflexivity|].
    destruct Hget1. pose proof (length_slice b1 (gptr b1) (unconsumed b1)).
    unfold unconsumed in *. lia. }
  assert (Hup2 : upcoming (reset_areas b1 mode) (hfile w2)
                 = take (Z.to_nat (unconsumed b1)) (drop j old) ++ drop j old).
  { unfold upcoming, unconsumed, slice. rewrite Hg, He, Hbuf.
    cbn [w2 hfile content position]. rewrite Hc1.
    fold (unconsumed b1). fold (slice b1 (gptr b1) (unconsumed b1)).
    rewrite Hsl. reflexivity. }
  rewrite Hup2 in Hrun3.
  exists b1, w1, w2, b3, w3.
  split; [exact Hrun|]. split; [|exact Hrun3].
  rewrite (seekoff_cur_eq _ _ _ _ _ _ Hseek).
  cbn [lib_tell mem_physfs MemFS]. reflexivity.
Qed.

(** X9. The two areas share the one buffer.  With bytes pending and the
    get area exhausted, a read refills the buffer from its start: the
    pending count is as before, but the pending bytes are now the
    file's bytes at the handle's position, not the ones that were
    written. *)
Theorem refill_overwrites_pending (this : fbuf) (w : world MemFile) :
  put_ok this -> unconsumed this <= 0 -> 0 < pending this ->
  Z.of_nat (position (hfile w)) + pending this
    <= Z.of_nat (length (content (hfile w))) ->
  let this' := snd (fst (sgetc this w)) in
  pending this' = pending this /\
  slice this' (pbase this') (pending this') =
    take (Z.to_nat (pending this))
         (drop (position (hfile w)) (content (hfile w))).
Proof.
  intros Hok Hu Hpend Hrem. pose proof Hok as [Hb Hp He Hl Hs].
  unfold pending, unconsumed in Hu, Hpend, Hrem.
  rewrite Hb, Z.sub_0_r in Hpend, Hrem.
  cbv zeta. unfold pending at 3 4. rewrite Hb, Z.sub_0_r.
  unfold sgetc. destruct (gptr this <? egptr this) eqn:E; [lia|].
  unfold underflow, bind, PHYSFS_eof, PHYSFS_readBytes.
  cbn [lib_eof lib_readBytes mem_physfs MemFS hfile hlog log].
  unfold mem_eof. rewrite bool_decide_eq_false_2 by lia.
  unfold mem_readBytes. change (hfile (log c_eof w)) with (hfile w).
  set (data := take (Z.to_nat (bufferSize this))
                 (drop (position (hfile w)) (content (hfile w)))).
  assert (Hdl : (Z.to_nat (pptr this) <= length data)%nat).
  { unfold data. rewrite length_take, length_drop. lia. }
  destruct (Z.of_nat (length data) <? 1) eqn:En; [lia|].
  unfold ret. cbn [fst snd]. unfold pending.
  cbn [pbase pptr setg blit set_buffer]. rewrite Hb, Z.sub_0_r.
  split; [reflexivity|].
  unfold slice. cbn [buffer setg blit set_buffer].
  change (Z.to_nat 0) with 0%nat. rewrite drop_0.
  rewrite (take_ge data) by (unfold data; rewrite length_take; lia).
  rewrite take_app_le by exact Hdl.
  unfold data. rewrite take_take. f_equal. lia.
Qed.

(** X10. Writing at any position: from an adapter with bytes [P] pending
    on a handle at position [pos], [sputn] accepts every character of
    [s] (flushing whenever the buffer is full), [sync] then succeeds,
    and the file is the old file with [P ++ s] stored from [pos] on,
    extended when they reach beyond its end. *)
Theorem write_then_sync (this : fbuf) (s : list char) (w : world MemFile) :
  put_ok this -> mem_ok (hfile w) ->
  exists b1 w1 b2 w2,
    sputn this s w = (Z.of_nat (length s), b1, w1) /\
    sync b1 w1 = (0, b2, w2) /\ pending b2 = 0 /\
    content (hfile w2) =
      overwrite (content (hfile w)) (position (hfile w))
                (slice this (pbase this) (pending this) ++ s) /\
    Z.of_nat (position (hfile w2)) =
      Z.of_nat (position (hfile w)) + pending this + Z.of_nat (length s).
Proof.
  intros Hok Hm. pose proof Hok as [Hb Hp He Hl Hs].
  destruct (sputn_mem s this w Hok Hm)
    as (b1 & w1 & Hrun1 & Hok1 & Hm1 & Hc1 & Hp1 & _).
  destruct (sync_mem b1 w1 Hok1 Hm1) as (w2 & Hrun2 & Hc2 & Hp2 & _).
  exists b1, w1, (setp b1 0 (0 + bufferSize b1)), w2.
  split; [exact Hrun1|]. split; [exact Hrun2|]. split; [reflexivity|].
  assert (Hn : length (slice this 0 (pptr this)) = Z.to_nat (pptr this)).
  { pose proof (length_slice this 0 (pptr this)). lia. }
  unfold pending. rewrite Hb, Z.sub_0_r. split.
  - rewrite Hc2, Hc1. unfold committed, put_position.
    rewrite <- Hn. apply overwrite_app.
  - rewrite Hp2, Hp1. unfold put_position. lia.
Qed.

(** X11. Sequential reading: with the get area exhausted, [sgetn] of [n]
    characters yields the next [n] bytes of the file from the handle's
    position, or all that are left when fewer are; the file is not
    changed; and once all were read, the next read gives the
    end-of-stream marker. *)
Theorem read_sequential (this : fbuf) (n : nat) (w : world MemFile) :
  get_ok this -> unconsumed this = 0 ->
  let rest := drop (position (hfile w)) (content (hfile w)) in
  exists this' w',
    sgetn this n w = (take n rest, this', w') /\
    content (hfile w') = content (hfile w) /\
    ((length rest <= n)%nat -> fst (fst (sbumpc this' w')) = traits_eof).
Proof.
  intros Hok Hu rest.
  destruct (sgetn_mem n this w Hok) as (this' & w' & Hrun & Hok' & Hup').
  destruct (sgetn_mem_frame n this w) as (Hc & _).
  rewrite Hrun in Hc. cbn [snd] in Hc.
  rewrite (upcoming_exhausted this (hfile w) Hu) in Hrun, Hup'.
  fold rest in Hrun, Hup'.
  exists this', w'. split; [exact Hrun|]. split; [exact Hc|].
  intros Hall. rewrite drop_ge in Hup' by exact Hall.
  destruct (sbumpc_mem this' w' Hok') as (r & b4 & w4 & Hrun4 & _ & Hr).
  rewrite Hup' in Hr. rewrite Hrun4. cbn [fst]. tauto.
Qed.

End OverMemFile.

(** ** Worked instances *)

(** Closed comparisons between numerals. *)
Ltac by_computation :=
  vm_compute; repeat split;
  first [ reflexivity | discriminate | intro; discriminate ].

Lemma write_read_roundtrip_witness :
  0 < 4 < 2 ^ 64 /\
  exists b1 w1 b2 w2 b3 w3 b4 w4,
    sputn (H := mem_physfs []) (fbuf_ctor_with [] 4) (bytes_of "HELLO!")
          ex_world = (6, b1, w1) /\
    pubsync (H := mem_physfs []) b1 w1 = (0, b2, w2) /\
    content (hfile w2) = bytes_of "HELLO!" ++ drop 6 (bytes_of "hello world") /\
    pubseekpos (H := mem_physfs []) b2 0 ios_in w2 = (0, b3, w3) /\
    pubseekoff (H := mem_physfs []) b2 0 ios_beg ios_in w2 = (0, b3, w3) /\
    sgetn (H := mem_physfs []) b3 6 w3 = (bytes_of "HELLO!", b4, w4).
Proof.
  split; [lia|].
  apply (write_read_roundtrip [] [] (bytes_of "hello world")
           (bytes_of "HELLO!") 4 ios_in []).
  lia.
Defined.

Lemma underflow_spec_witness :
  lib_eof (PhysFS := ex_fs) (hfile ex_world) = false /\
  1 <= 4 /\
  exists r this',
    underflow (H := ex_fs) ex_fbuf ex_world =
      (r, this',
       World (Mem (bytes_of "hello world") 4) [c_eof; c_readBytes 4]) /\
    egptr this' = 4 /\ gptr this' = 0 /\ r <> traits_eof /\
    slice this' (gptr this') (egptr this' - gptr this') = bytes_of "hell".
Proof.
  split; [reflexivity|]. split; [lia|].
  destruct (proj2 (underflow_spec (H := ex_fs) ex_fbuf ex_world) eq_refl
              (Mem (bytes_of "hello world") 4) (bytes_of "hell") 4 eq_refl)
    as (r & this' & Hrun & _ & Hwin).
  destruct (Hwin ltac:(lia))
    as (_ & Hg & He & _ & _ & Hne & _ & _ & _ & Hdata).
  exists r, this'. split; [exact Hrun|].
  split; [exact He|]. split; [exact Hg|]. split; [exact Hne|].
  apply Hdata; [reflexivity | by_computation].
Defined.

Lemma flush_spec_witness :
  0 < pending ex_fbuf_written < 2 ^ 64 /\
  exists r,
    flush (H := ex_fs) ex_fbuf_written ex_world =
      (r, World (Mem (bytes_of "abclo world") 3)
                [c_writeBytes (bytes_of "abc") 3]) /\
    (r = 0 <-> 3 <= 3).
Proof.
  split; [by_computation|].
  destruct (proj2 (flush_spec (H := ex_fs) ex_fbuf_written ex_world)
              ltac:(by_computation)
              (Mem (bytes_of "abclo world") 3) 3 eq_refl)
    as (r & Hrun & _ & Hok & _).
  exists r. split; [exact Hrun | exact Hok].
Defined.

Lemma seekoff_cur_spec_witness :
  0 <= (lib_tell (PhysFS := ex_fs) (hfile ex_world_read) + 0)
       - unconsumed ex_fbuf_read < 2 ^ 64 /\
  unconsumed ex_fbuf_read = 1 /\
  lib_tell (PhysFS := ex_fs) (hfile ex_world_read) = 4 /\
  fst (fst (seekoff (H := ex_fs) ex_fbuf_read 0 ios_cur ios_in ex_world_read))
    = 4 - 1.
Proof.
  split; [by_computation|].
  split; [reflexivity|]. split; [reflexivity|].
  destruct (seekoff_cur_spec (H := ex_fs) ex_fbuf_read 0 ios_in ex_world_read
              ltac:(by_computation)
              (Mem (bytes_of "hello world") 3) 1 eq_refl)
    as (_ & Hpos).
  destruct (Hpos eq_refl) as (_ & Hzero).
  exact (Hzero eq_refl).
Defined.

Lemma dtor_flush_then_close_witness :
  0 < pending ex_fbuf_written < 2 ^ 64 /\
  ofstream_dtor (H := ex_fs) (Stream handle_ptr (Some ex_fbuf_written)) ex_world
  = (Stream nullptr (Some ex_fbuf_written),
     World (Mem (bytes_of "abclo world") 3)
           [c_writeBytes (bytes_of "abc") 3; c_close]).
Proof.
  split; [by_computation|].
  apply (proj1 (proj2 (dtor_flush_then_close (H := ex_fs)
                         ex_fbuf_written ex_world))
           ltac:(by_computation)
           (Mem (bytes_of "abclo world") 3) 3
           (Mem (bytes_of "abclo world") 3) 1 eq_refl eq_refl).
Defined.

Lemma open_failure_witness :
  lib_open (H := ex_fs) READ (c_str "missing.txt") = None /\
  ifstream_ctor (H := ex_fs) "missing.txt" =
    inl (invalid_argument "file not found: missing.txt").
Proof.
  split; [reflexivity|].
  destruct (open_failure (H := ex_fs) "missing.txt" READ eq_refl)
    as (_ & _ & _ & Hin & _).
  exact (Hin eq_refl).
Defined.

Lemma seek_out_discards_witness :
  has_bit ios_out ios_out = true /\
  pending ex_fbuf_written = 3 /\
  let res := seekpos (H := ex_fs) ex_fbuf_written 0 ios_out ex_world in
  pending (snd (fst res)) = 0 /\
  flush (H := ex_fs) (snd (fst res)) (snd res) = (0, snd res).
Proof.
  split; [reflexivity|]. split; [reflexivity|].
  destruct (seek_out_discards (H := ex_fs) ex_fbuf_written ios_out ex_world
              eq_refl
              (seekpos (H := ex_fs) ex_fbuf_written 0 ios_out ex_world)
              (or_intror (ex_intro _ 0 eq_refl)))
    as (Hp & _ & _ & _ & Hf & _).
  split; [exact Hp | exact Hf].
Defined.

Lemma seek_in_invalidates_witness :
  has_bit ios_in ios_in = true /\
  unconsumed ex_fbuf_read = 1 /\
  let res := seekoff (H := ex_fs) ex_fbuf_read 0 ios_cur ios_in ex_world_read in
  unconsumed (snd (fst res)) = 0 /\
  sgetc (H := ex_fs) (snd (fst res)) (snd res)
    = underflow (H := ex_fs) (snd (fst res)) (snd res).
Proof.
  split; [reflexivity|]. split; [reflexivity|].
  destruct (seek_in_invalidates (H := ex_fs) ex_fbuf_read ios_in ex_world_read
              eq_refl
              (seekoff (H := ex_fs) ex_fbuf_read 0 ios_cur ios_in ex_world_read)
              (or_introl (ex_intro _ 0 (ex_intro _ ios_cur eq_refl))))
    as (Hu & _ & _ & Hs & _).
  split; [exact Hu | exact Hs].
Defined.

Lemma eof_read_idempotent_witness :
  unconsumed ex_fbuf <= 0 /\
  lib_eof (PhysFS := ex_fs) (hfile ex_world_eof) = true /\
  sbumpc_times (H := ex_fs) 3 ex_fbuf ex_world_eof =
    ([traits_eof; traits_eof; traits_eof], ex_fbuf,
     World (hfile ex_world_eof) [c_eof; c_eof; c_eof]).
Proof.
  split; [by_computation|]. split; [reflexivity|].
  destruct (eof_read_idempotent (H := ex_fs) ex_fbuf ex_world_eof
              ltac:(by_computation) eq_refl)
    as (_ & _ & _ & _ & _ & Hn).
  exact (Hn 3%nat).
Defined.

(** A seek for writing with three bytes pending, then destruction: the
    handle sees the seek and the close, and the file is as it was. *)
Example seek_out_loses_pending :
  let res := seekpos (H := ex_fs) ex_fbuf_written 0 ios_out ex_world in
  snd (ofstream_dtor (H := ex_fs) (Stream handle_ptr (Some (snd (fst res))))
         (snd res))
  = World (Mem (bytes_of "hello world") 0) [c_seek 0; c_tell; c_close].
Proof. reflexivity. Qed.

(** Bytes written after that seek are the only ones that reach the file. *)
Example seek_out_then_write :
  let res := seekpos (H := ex_fs) ex_fbuf_written 0 ios_out ex_world in
  let res' := sputn (H := ex_fs) (snd (fst res)) (bytes_of "xy") (snd res) in
  snd (ofstream_dtor (H := ex_fs) (Stream handle_ptr (Some (snd (fst res'))))
         (snd res'))
  = World (Mem (bytes_of "xyllo world") 2)
          [c_seek 0; c_tell; c_writeBytes (bytes_of "xy") 2; c_close].
Proof. reflexivity. Qed.

(** Opening an existing file for reading gives a stream with the default
    buffer of 2048 bytes. *)
Example open_existing :
  exists s w, ifstream_ctor (H := ex_fs) "a.txt" = inr (s, w) /\
              file s = handle_ptr /\
              (bufferSize <$> rdbuf s) = Some 2048 /\
              hfile w = Mem (bytes_of "hello world") 0.
Proof. eexists _, _. split; [reflexivity|]. repeat split. Qed.

(** ** Worked instances for the further properties *)

Lemma ex_fbuf_put_ok : put_ok ex_fbuf.
Proof. constructor; by_computation. Qed.

Lemma ex_fbuf_written_put_ok : put_ok ex_fbuf_written.
Proof. constructor; by_computation. Qed.

Lemma ex_fbuf_get_ok : get_ok ex_fbuf.
Proof. constructor; by_computation. Qed.

Lemma ex_fbuf_read_get_ok : get_ok ex_fbuf_read.
Proof. constructor; by_computation. Qed.

Lemma overflow_spec_witness :
  flush (H := ex_fs) ex_fbuf_written ex_world =
    (0, World (Mem (bytes_of "abclo world") 3)
              [c_writeBytes (bytes_of "abc") 3]) /\
  0 <= 0 /\
  exists this',
    overflow (H := ex_fs) ex_fbuf_written 120 ex_world =
      (120, this', World (Mem (bytes_of "abclo world") 3)
                         [c_writeBytes (bytes_of "abc") 3]) /\
    pptr this' = 1 /\
    slice this' (pbase this') (pending this') = [to_char_type 120].
Proof.
  split; [reflexivity|]. split; [lia|].
  destruct (overflow_spec (H := ex_fs) ex_fbuf_written 120 ex_world 0
              (World (Mem (bytes_of "abclo world") 3)
                     [c_writeBytes (bytes_of "abc") 3]) eq_refl)
    as (_ & Hok & _).
  destruct (Hok ltac:(lia)) as (this' & Hrun & _ & _ & _ & _ & _ & Hst).
  destruct (Hst ltac:(by_computation) ltac:(by_computation)) as (Hpp & Hsl).
  exists this'. split; [exact Hrun|]. split; [exact Hpp | exact Hsl].
Defined.

Lemma sgetc_then_sbumpc_witness :
  exists r this' w',
    sgetc (H := ex_fs) ex_fbuf ex_world = (r, this', w') /\
    r <> traits_eof /\
    sbumpc (H := ex_fs) this' w' = (r, gbump this' 1, w').
Proof.
  remember (sgetc (H := ex_fs) ex_fbuf ex_world) as res eqn:E.
  destruct res as [[r this'] w']. symmetry in E.
  assert (Hne : r <> traits_eof).
  { pose proof E as E'. vm_compute in E'. injection E' as <- _ _.
    by_computation. }
  exists r, this', w'. split; [reflexivity|]. split; [exact Hne|].
  exact (proj2 (sgetc_then_sbumpc (H := ex_fs) ex_fbuf ex_world r this' w'
                  E Hne)).
Defined.

Lemma put_area_invariant_witness :
  put_ok ex_fbuf /\
  put_ok (snd (fst (sputn (H := ex_fs) ex_fbuf (bytes_of "hello!") ex_world))).
Proof.
  split; [exact ex_fbuf_put_ok|].
  exact (proj1 (proj2 (put_area_invariant (H := ex_fs) ex_fbuf ex_world
                         ex_fbuf_put_ok)) (bytes_of "hello!")).
Defined.

Lemma get_area_invariant_witness :
  get_ok ex_fbuf /\
  lib_readBytes (PhysFS := ex_fs) (hfile ex_world) (bufferSize ex_fbuf) =
    (Mem (bytes_of "hello world") 4, bytes_of "hell", 4) /\
  4 <= bufferSize ex_fbuf /\
  get_ok (snd (fst (sbumpc (H := ex_fs) ex_fbuf ex_world))).
Proof.
  split; [exact ex_fbuf_get_ok|]. split; [reflexivity|].
  split; [by_computation|].
  destruct (proj1 (get_area_invariant (H := ex_fs) ex_fbuf ex_world
                     ex_fbuf_get_ok)
              (Mem (bytes_of "hello world") 4) (bytes_of "hell") 4 eq_refl
              ltac:(by_computation))
    as (_ & _ & Hb).
  exact Hb.
Defined.

Lemma seek_then_read_witness :
  get_ok ex_fbuf_read /\ has_bit ios_in ios_in = true /\
  0 <= 6 <= Z.of_nat (length (content (hfile ex_world_read))) /\
  6 < 2 ^ 64 /\
  exists w1 this2 w2,
    seekpos (H := mem_physfs []) ex_fbuf_read 6 ios_in ex_world_read
      = (6, reset_areas ex_fbuf_read ios_in, w1) /\
    seekoff (H := mem_physfs []) ex_fbuf_read 6 ios_beg ios_in ex_world_read
      = (6, reset_areas ex_fbuf_read ios_in, w1) /\
    sgetn (H := mem_physfs []) (reset_areas ex_fbuf_read ios_in) 5 w1
      = (bytes_of "world", this2, w2).
Proof.
  split; [exact ex_fbuf_read_get_ok|]. split; [reflexivity|].
  split; [by_computation|]. split; [by_computation|].
  exact (seek_then_read [] ex_fbuf_read 6 ios_in 5 ex_world_read
           ex_fbuf_read_get_ok eq_refl
           ltac:(by_computation) ltac:(by_computation)).
Defined.

Lemma seek_from_end_then_read_witness :
  get_ok ex_fbuf_read /\ has_bit ios_in ios_in = true /\
  0 <= 5 <= Z.of_nat (length (content (hfile ex_world_read))) /\
  Z.of_nat (length (content (hfile ex_world_read))) < 2 ^ 64 /\
  exists w1 this2 w2,
    seekoff (H := mem_physfs []) ex_fbuf_read (- 5) ios_end ios_in ex_world_read
      = (6, reset_areas ex_fbuf_read ios_in, w1) /\
    sgetn (H := mem_physfs []) (reset_areas ex_fbuf_read ios_in) 9 w1
      = (bytes_of "world", this2, w2).
Proof.
  split; [exact ex_fbuf_read_get_ok|]. split; [reflexivity|].
  split; [by_computation|]. split; [by_computation|].
  destruct (seek_from_end_then_read [] ex_fbuf_read 5 ios_in 9 ex_world_read
              ex_fbuf_read_get_ok eq_refl
              ltac:(by_computation) ltac:(by_computation))
    as (w1 & this2 & w2 & Hseek & Hread & _).
  exists w1, this2, w2. split; [exact Hseek | exact Hread].
Defined.

Lemma seek_in_relocates_pending_witness :
  put_ok ex_fbuf_written /\ has_bit ios_in ios_out = false /\
  0 <= 6 <= Z.of_nat (length (content (hfile ex_world))) /\ 6 < 2 ^ 64 /\
  exists w1 this2 w2,
    seekpos (H := mem_physfs []) ex_fbuf_written 6 ios_in ex_world
      = (6, reset_areas ex_fbuf_written ios_in, w1) /\
    sync (H := mem_physfs []) (reset_areas ex_fbuf_written ios_in) w1
      = (0, this2, w2) /\
    content (hfile w2) = bytes_of "hello abcld".
Proof.
  split; [exact ex_fbuf_written_put_ok|]. split; [reflexivity|].
  split; [by_computation|]. split; [by_computation|].
  destruct (seek_in_relocates_pending [] ex_fbuf_written 6 ios_in ex_world
              ex_fbuf_written_put_ok eq_refl
              ltac:(by_computation) ltac:(by_computation))
    as (w1 & this2 & w2 & Hseek & _ & _ & Hsync & Hcontent).
  exists w1, this2, w2.
  split; [exact Hseek|]. split; [exact Hsync | exact Hcontent].
Defined.

Lemma tell_after_read_witness :
  0 < 4 /\ (3 <= length (bytes_of "hello world"))%nat /\
  Z.of_nat (length (bytes_of "hello world")) < 2 ^ 64 /\
  exists b1 w1,
    sgetn (H := mem_physfs []) (fbuf_ctor_with [] 4) 3 ex_world
      = (bytes_of "hel", b1, w1) /\
    Z.of_nat (position (hfile w1)) - unconsumed b1 = 3 /\
    fst (fst (seekoff (H := mem_physfs []) b1 0 ios_cur ios_in w1)) = 3.
Proof.
  split; [lia|]. split; [vm_compute; lia|]. split; [by_computation|].
  exact (tell_after_read [] [] (bytes_of "hello world") 4 ios_in [] 3
           ltac:(lia) ltac:(vm_compute; lia) ltac:(by_computation)).
Defined.

Lemma tell_for_write_rereads_witness :
  0 < 4 /\ (3 <= length (bytes_of "hello world"))%nat /\
  Z.of_nat (length (bytes_of "hello world")) < 2 ^ 64 /\
  has_bit ios_out ios_in = false /\
  exists b1 w1 w2 b3 w3,
    sgetn (H := mem_physfs []) (fbuf_ctor_with [] 4) 3 ex_world
      = (bytes_of "hel", b1, w1) /\
    seekoff (H := mem_physfs []) b1 0 ios_cur ios_out w1
      = (3, reset_areas b1 ios_out, w2) /\
    sgetn (H := mem_physfs []) (reset_areas b1 ios_out) 3 w2 =
      (take 3 (take (Z.to_nat (unconsumed b1)) (bytes_of "lo world")
               ++ bytes_of "lo world"), b3, w3).
Proof.
  split; [lia|]. split; [vm_compute; lia|]. split; [by_computation|].
  split; [reflexivity|].
  exact (tell_for_write_rereads [] [] (bytes_of "hello world") 4 ios_out [] 3 3
           ltac:(lia) ltac:(vm_compute; lia) ltac:(by_computation) eq_refl).
Defined.

Lemma refill_overwrites_pending_witness :
  put_ok ex_fbuf_written /\ unconsumed ex_fbuf_written <= 0 /\
  0 < pending ex_fbuf_written /\
  Z.of_nat (position (hfile ex_world)) + pending ex_fbuf_written
    <= Z.of_nat (length (content (hfile ex_world))) /\
  slice ex_fbuf_written (pbase ex_fbuf_written) (pending ex_fbuf_written)
    = bytes_of "abc" /\
  let this' := snd (fst (sgetc (H := mem_physfs []) ex_fbuf_written ex_world)) in
  pending this' = 3 /\
  slice this' (pbase this') (pending this') = bytes_of "hel".
Proof.
  split; [exact ex_fbuf_written_put_ok|]. split; [by_computation|].
  split; [by_computation|]. split; [by_computation|]. split; [reflexivity|].
  exact (refill_overwrites_pending [] ex_fbuf_written ex_world
           ex_fbuf_written_put_ok ltac:(by_computation) ltac:(by_computation)
           ltac:(by_computation)).
Defined.

Lemma write_then_sync_witness :
  put_ok ex_fbuf_written /\ mem_ok (hfile ex_world) /\
  exists b1 w1 b2 w2,
    sputn (H := mem_physfs []) ex_fbuf_written (bytes_of "defgh") ex_world
      = (5, b1, w1) /\
    sync (H := mem_physfs []) b1 w1 = (0, b2, w2) /\
    content (hfile w2) = bytes_of "abcdefghrld" /\
    Z.of_nat (position (hfile w2)) = 8.
Proof.
  split; [exact ex_fbuf_written_put_ok|].
  assert (Hm : mem_ok (hfile ex_world)) by (unfold mem_ok; cbn; lia).
  split; [exact Hm|].
  destruct (write_then_sync [] ex_fbuf_written (bytes_of "defgh") ex_world
              ex_fbuf_written_put_ok Hm)
    as (b1 & w1 & b2 & w2 & Hput & Hsync & _ & Hcontent & Hpos).
  exists b1, w1, b2, w2.
  split; [exact Hput|]. split; [exact Hsync|].
  split; [exact Hcontent | exact Hpos].
Defined.

Lemma read_sequential_witness :
  get_ok ex_fbuf /\ unconsumed ex_fbuf = 0 /\
  exists this' w',
    sgetn (H := mem_physfs []) ex_fbuf 20 ex_world
      = (bytes_of "hello world", this', w') /\
    fst (fst (sbumpc (H := mem_physfs []) this' w')) = traits_eof.
Proof.
  split; [exact ex_fbuf_get_ok|]. split; [reflexivity|].
  destruct (read_sequential [] ex_fbuf 20 ex_world ex_fbuf_get_ok eq_refl)
    as (this' & w' & Hrun & _ & Heof).
  exists this', w'. split; [exact Hrun|].
  apply Heof. vm_compute. lia.
Defined.

Lemma write_destroy_reopen_read_witness :
  0 < 4 < 2 ^ 64 /\ 0 < 8 /\
  exists b1 w1 w2 b3 w3,
    sputn (H := mem_physfs []) (fbuf_ctor_with [] 4) (bytes_of "hello")
          (World (Mem [] 0) []) = (5, b1, w1) /\
    ofstream_dtor (H := mem_physfs []) (Stream handle_ptr (Some b1)) w1
      = (Stream nullptr (Some b1), w2) /\
    content (hfile w2) = bytes_of "hello" /\
    sgetn (H := mem_physfs []) (fbuf_ctor_with [] 8) 5
          (World (Mem (content (hfile w2)) 0) []) = (bytes_of "hello", b3, w3) /\
    fst (fst (sbumpc (H := mem_physfs []) b3 w3)) = traits_eof.
Proof.
  split; [lia|]. split; [lia|].
  destruct (write_destroy_reopen_read [] [] [] [] (bytes_of "hello") 4 8 [] []
              ltac:(lia) ltac:(lia))
    as (b1 & w1 & w2 & b3 & w3 & Hput & Hdtor & Hcontent & Hget & Heof).
  exists b1, w1, w2, b3, w3.
  split; [exact Hput|]. split; [exact Hdtor|]. split; [exact Hcontent|].
  split; [exact Hget | exact (Heof eq_refl)].
Defined.

Lemma sputn_after_reset_witness :
  let this :=
    snd (fst (seekpos (H := ex_fs) ex_fbuf_written 0 ios_out ex_world)) in
  pbase this = 0 /\ pptr this = 0 /\ epptr this = 0 /\
  Z.of_nat (length (buffer this)) = bufferSize this /\
  Z.of_nat (length (bytes_of "xy")) <= bufferSize this /\
  exists this',
    sputn (H := ex_fs) this (bytes_of "xy") ex_world = (2, this', ex_world) /\
    slice this' (pbase this') (pptr this' - pbase this') = bytes_of "xy".
Proof.
  cbv zeta.
  split; [reflexivity|]. split; [reflexivity|]. split; [reflexivity|].
  split; [reflexivity|]. split; [by_computation|].
  destruct (sputn_after_reset (H := ex_fs) (bytes_of "xy")
              (snd (fst (seekpos (H := ex_fs) ex_fbuf_written 0 ios_out
                           ex_world)))
              ex_world eq_refl eq_refl eq_refl eq_refl ltac:(by_computation))
    as (this' & Hrun & _ & _ & Hsl).
  exists this'. split; [exact Hrun | exact Hsl].
Defined.

Lemma ofstream_close_flushes_after_close_witness :
  0 < pending ex_fbuf_written < 2 ^ 64 /\
  hlog (snd (ofstream_close (H := ex_fs)
               (Stream handle_ptr (Some ex_fbuf_written)) ex_world))
  = [c_close; c_writeBytes (bytes_of "abc") 3].
Proof.
  split; [by_computation|].
  exact (ofstream_close_flushes_after_close (H := ex_fs) ex_fbuf_written
           ex_world ltac:(by_computation)).
Defined.

Lemma ctor_success_witness :
  lib_open (H := ex_fs) READ (c_str "a.txt")
    = Some (Mem (bytes_of "hello world") 0) /\
  exists b,
    ifstream_ctor (H := ex_fs) "a.txt" =
      inr (Stream handle_ptr (Some b),
           World (Mem (bytes_of "hello world") 0) []) /\
    bufferSize b = 2048 /\ pending b = 0 /\ unconsumed b = 0.
Proof.
  split; [reflexivity|].
  destruct (proj1 (ctor_success (H := ex_fs) "a.txt" READ)
              (Mem (bytes_of "hello world") 0) eq_refl)
    as (b & _ & _ & Hin & Hbs & _ & Hp & _ & Hu).
  exists b. split; [exact (Hin eq_refl)|].
  split; [exact Hbs|]. split; [exact Hp | exact Hu].
Defined.


Lemma close_then_destroy_witness :
  file (Stream handle_ptr (Some ex_fbuf_written)) = handle_ptr /\
  let closed := ofstream_close (H := ex_fs)
                  (Stream handle_ptr (Some ex_fbuf_written)) ex_world in
  hlog (snd (ofstream_dtor (H := ex_fs) (fst closed) (snd closed)))
    = [c_close; c_writeBytes (bytes_of "abc") 3; c_close_null] /\
  count_close
    (hlog (snd (ofstream_dtor (H := ex_fs) (fst closed) (snd closed)))) = 1%nat.
Proof.
  split; [reflexivity|].
  destruct (close_then_destroy (H := ex_fs)
              (Stream handle_ptr (Some ex_fbuf_written)) ex_world eq_refl)
    as (Hlog & _ & Hcount).
  split; [exact Hlog | exact Hcount].
Defined.
